(** * wpm: the fetch / plan / commit pipeline of the addon manager

    A shallow embedding of [Specification.Download],
    [Specification.PlanChanges] and the commit loop of [main] (src/main.go),
    together with the parts of Go's [path] package they call.  The second
    source file is an earlier copy of the same program ([Spec] for
    [Specification], [change] for [commiter], no [link] kind); its
    [Download] and its archive branch of [PlanChanges] are the same code. *)

From Stdlib Require Import Ascii String.
From stdpp Require Import base list strings gmap sorting.

Local Open Scope string_scope.
#[local] Set Warnings "-clear-no-such-hyp".

(** ** Go's [path] package

    Paths are Go strings, i.e. byte sequences; [ascii] is one byte. *)
Module path.

(** The elements of a path: the substrings between consecutive slashes.
    ["a//b/"] has the elements ["a"], [""], ["b"], [""]. *)
Fixpoint elements (s : string) : list string :=
  match s with
  | "" => [""]
  | String c s' =>
      if Ascii.eqb c "/"%char then "" :: elements s'
      else match elements s' with
           | [] => [String c ""]
           | x :: xs => String c x :: xs
           end
  end.

(** The inverse direction: elements written out with single slashes. *)
Fixpoint join_slash (l : list string) : string :=
  match l with
  | [] => ""
  | [x] => x
  | x :: xs => x +:+ "/" +:+ join_slash xs
  end.

Definition rooted (p : string) : bool :=
  match p with
  | String c _ => Ascii.eqb c "/"%char
  | "" => false
  end.

(** One iteration of the loop of [path.Clean].  Go's loop reads the path
    byte by byte and handles one path element per iteration; here an
    iteration takes the element whole.  [out] is the output buffer as the list of elements written so far,
    last written first.  The buffer's [dotdot] mark sits right after the
    leading [..] elements, so "can backtrack" ([out.w > dotdot]) means
    that the last written element is not [..]. *)
Definition clean_step (rt : bool) (out : list string) (e : string)
  : list string :=
  if decide (e = "") then out            (* empty path element *)
  else if decide (e = ".") then out      (* . element *)
  else if decide (e = "..") then         (* .. element *)
    match out with
    | top :: rest =>
        if decide (top = "..")
        then (if rt then out else ".." :: out)
        else rest                        (* can backtrack *)
    | [] => if rt then [] else [".."]
    end
  else e :: out.                         (* real path element *)

Definition Clean (p : string) : string :=
  if decide (p = "") then "."
  else
    let rt := rooted p in
    let out := foldl (clean_step rt) [] (elements p) in
    let s := (if rt then "/" else "") +:+ join_slash (reverse out) in
    if decide (s = "") then "." else s.

(** [path.Split]: cut immediately after the final slash. *)
Fixpoint Split (p : string) : string * string :=
  match p with
  | "" => ("", "")
  | String c s =>
      let '(d, f) := Split s in
      if decide (d = "")
      then (if Ascii.eqb c "/"%char then ("/", s) else ("", String c s))
      else (String c d, f)
  end.

(** [path.Join]: empty arguments are ignored, the rest is joined with
    slashes and cleaned; all arguments empty gives the empty string. *)
Definition Join (elem : list string) : string :=
  match filter (λ e, e ≠ "") elem with
  | [] => ""
  | ne => Clean (join_slash ne)
  end.

Definition Dir (p : string) : string := Clean (fst (Split p)).

End path.

(** ** Data model *)

(** One entry of [zip.Reader.File].  [FileInfo().IsDir()] is true when the
    entry's mode bits say so, and always when the name ends in a slash
    (archive/zip, [FileHeader.Mode]).  [Data] is what [f.Open()] gives: the
    reader, as the bytes that will be read from it, or [None] when [Open]
    fails and returns a nil reader. *)
Record ZipFile := {
  Name : string;
  ModeDir : bool;
  Data : option string
}.

Fixpoint ends_in_slash (s : string) : bool :=
  match s with
  | "" => false
  | String c "" => Ascii.eqb c "/"%char
  | String _ s' => ends_in_slash s'
  end.

Definition IsDir (f : ZipFile) : bool := ModeDir f || ends_in_slash (Name f).

(** [type Specification struct]; a nil [zipData] is [None]. *)
Record Specification := {
  spName : string;
  spType : string;
  Location : string;
  Branch : string;
  zipData : option (list ZipFile);
  ownDirs : list string
}.

(** The implementations of [commiter].  The [data] of an [fsWritefile] is
    an [io.Reader], [None] when it is nil. *)
Inductive commiter :=
| fsRmdir (loc : string)
| fsRm (loc : string)
| fsMkdir (loc : string)
| fsWritefile (loc : string) (data : option string)
| fsLink (src dst : string).

Global Instance commiter_eq_dec : EqDecision commiter.
Proof. solve_decision. Defined.

(** ** Effects

    What a call does besides computing: it prints, and it talks to the
    network.  A call returns, panics (a nil dereference) or does not come
    back.  A loop that may spin forever runs on [fuel], the number of
    iterations each such loop is given: [Hangs] at some [fuel] says that a
    loop was still running after [fuel] iterations, and the call diverges
    when it [Hangs] at every [fuel]. *)
Inductive Event :=
| Printed (msg : string)
| HttpGet (url : string).

Inductive Outcome (A : Type) :=
| Returns (a : A)
| Panics
| Hangs.
Global Arguments Returns {A} a.
Global Arguments Panics {A}.
Global Arguments Hangs {A}.

Record Run (A : Type) := { trace : list Event; outcome : Outcome A }.
Global Arguments trace {A} r.
Global Arguments outcome {A} r.

Inductive result (A : Type) :=
| Ok (a : A)
| Err (msg : string).
Global Arguments Ok {A} a.
Global Arguments Err {A} msg.

(** The collaborators of [Download]: [http.Get] followed by reading the
    body, [goquery.NewDocumentFromReader] followed by the two [Find]s (a
    document is the list of its file rows, each the [href] of its download
    button, empty when there is none), and [zip.NewReader] on the body and
    its length, which gives the entries of the reader it returns, or [Err]
    when it returns no reader (nil). *)
Record World := {
  http_Get : string → result string;
  goquery_NewDocument : string → result (list string);
  zip_NewReader : string → result (list ZipFile)
}.

(** Go leaves the iteration order of a map unspecified: [range] over a map
    yields every key once, in some order. *)
Record MapOrder := {
  range_keys : gset string → list string;
  range_keys_perm : ∀ s, range_keys s ≡ₚ elements s
}.

Definition elements_order : MapOrder :=
  {| range_keys := elements; range_keys_perm := λ s, reflexivity _ |}.

(** [sort.Strings]: ascending, bytewise. *)
Definition sort_Strings (l : list string) : list string :=
  merge_sort String.le l.

(** ** [Specification.Download] *)

(** The inner [for] of [Download]: climb with [path.Join(dir, "..")] until
    that gives ["."]. *)
Fixpoint top_dir (fuel : nat) (dir : string) : option string :=
  match fuel with
  | O => None
  | S n =>
      let nxt := path.Join [dir; ".."] in
      if decide (nxt = ".") then Some dir else top_dir n nxt
  end.

(** The outer [for] over [sp.zipData.File], filling the map [dirs]
    (a [map[string]struct{}], which is what [gset string] is). *)
Fixpoint own_dirs (fuel : nat) (files : list ZipFile) (dirs : gset string)
  : option (gset string) :=
  match files with
  | [] => Some dirs
  | f :: fs =>
      if decide (Name f = ".") then own_dirs fuel fs dirs
      else
        match top_dir fuel (fst (path.Split (Name f))) with
        | None => None
        | Some dir => own_dirs fuel fs ({[dir]} ∪ dirs)
        end
  end.

Definition site (ty : string) : string :=
  if decide (ty = "curse") then "https://wow.curseforge.com"
  else if decide (ty = "wowace") then "https://www.wowace.com"
  else "".

Definition index_url (ty name : string) : string :=
  if decide (ty = "curse")
  then "https://wow.curseforge.com/projects/" +:+ name +:+ "/files"
  else if decide (ty = "wowace")
  then "https://www.wowace.com/projects/" +:+ name +:+ "/files"
  else "".

Definition set_zipData (sp : Specification) (z : option (list ZipFile))
  : Specification :=
  {| spName := spName sp; spType := spType sp; Location := Location sp;
     Branch := Branch sp; zipData := z; ownDirs := ownDirs sp |}.

Definition set_ownDirs (sp : Specification) (d : list string)
  : Specification :=
  {| spName := spName sp; spType := spType sp; Location := Location sp;
     Branch := Branch sp; zipData := zipData sp; ownDirs := d |}.

(** The closure passed to [items.First().Each]: it runs on the first row,
    if there is one, and assigns [sp.zipData]. *)
Definition fetch_zip (w : World) (sp : Specification) (doc : list string)
  : list Event * Specification :=
  match doc with
  | [] => ([], sp)
  | href :: _ =>
      let href := site (spType sp) +:+ href in
      match http_Get w href with
      | Err _ => ([HttpGet href; Printed "Error getting zip."], sp)
      | Ok b =>
          ([HttpGet href],
           set_zipData sp
             match zip_NewReader w b with Ok z => Some z | Err _ => None end)
      end
  end.

Definition Download (w : World) (ord : MapOrder) (fuel : nat)
    (sp : Specification) : Run Specification :=
  if decide (spType sp = "curse" ∨ spType sp = "wowace") then
    let u := index_url (spType sp) (spName sp) in
    if decide (u = "") then {| trace := []; outcome := Returns sp |}
    else
      match http_Get w u with
      | Err e =>
          {| trace := [HttpGet u;
                       Printed ("Unable to get the index for " +:+ spName sp
                                +:+ ": " +:+ e +:+ String "010" "")];
             outcome := Returns sp |}
      | Ok body =>
          match goquery_NewDocument w body with
          | Err e =>
              {| trace := [HttpGet u;
                           Printed ("Unable to parse the returned document "
                                    +:+ "into goquery: " +:+ e)];
                 outcome := Returns sp |}
          | Ok doc =>
              let '(ev, sp1) := fetch_zip w sp doc in
              {| trace := HttpGet u :: ev;
                 outcome :=
                   match zipData sp1 with
                   | None => Panics     (* sp.zipData.File on a nil reader *)
                   | Some files =>
                       match own_dirs fuel files ∅ with
                       | None => Hangs
                       | Some dirs =>
                           Returns (set_ownDirs sp1 (range_keys ord dirs))
                       end
                   end |}
          end
      end
  else if decide (spType sp = "ignore") then
    {| trace := []; outcome := Returns (set_ownDirs sp [spName sp]) |}
  else if decide (spType sp = "link") then
    {| trace := []; outcome := Returns (set_ownDirs sp [spName sp]) |}
  else {| trace := []; outcome := Returns sp |}.

(** ** [Specification.PlanChanges] *)

(** [for pth != "." { dirs[pth] = true; pth = path.Dir(pth) }] *)
Fixpoint dir_chain (fuel : nat) (pth : string) (dirs : gmap string bool)
  : option (gmap string bool) :=
  match fuel with
  | O => None
  | S n =>
      if decide (pth = ".") then Some dirs
      else dir_chain n (path.Dir pth) (<[pth := true]> dirs)
  end.

Fixpoint new_dirs (fuel : nat) (files : list ZipFile) (dirs : gmap string bool)
  : option (gmap string bool) :=
  match files with
  | [] => Some dirs
  | f :: fs =>
      match dir_chain fuel (path.Dir (Name f)) dirs with
      | None => None
      | Some dirs' => new_dirs fuel fs dirs'
      end
  end.

Definition plan_archive (base : string) (own dirSl : list string)
    (files : list ZipFile) : list commiter :=
  map (λ d, fsRmdir (path.Join [base; d])) own
  ++ map (λ s, fsMkdir (path.Join [base; s])) dirSl
  ++ map (λ f, fsWritefile (path.Join [base; Name f]) (Data f))
         (filter (λ f, IsDir f = false) files).

Definition PlanChanges (ord : MapOrder) (fuel : nat) (base : string)
    (sp : Specification) : Run (list commiter) :=
  if decide (spType sp = "curse" ∨ spType sp = "wowace") then
    match zipData sp with
    | None => {| trace := [Printed ("nil data" +:+ String "010" "")];
                 outcome := Returns [] |}
    | Some files =>
        {| trace := [];
           outcome :=
             match new_dirs fuel files ∅ with
             | None => Hangs
             | Some dirs =>
                 let dirSl := sort_Strings (range_keys ord (dom dirs)) in
                 Returns (plan_archive base (ownDirs sp) dirSl files)
             end |}
    end
  else if decide (spType sp = "ignore") then
    {| trace := []; outcome := Returns [] |}
  else if decide (spType sp = "link") then
    {| trace := [];
       outcome := Returns [fsRmdir (path.Join [base; spName sp]);
                           fsLink (Location sp) (path.Join [base; spName sp])] |}
  else {| trace := []; outcome := Returns [] |}.

(** ** The commit loop of [main]

    [for _, d := range delta { d.commit() }]: the error every [commit]
    returns is dropped.  The file system is the operating system's; its
    calls are parameters, each taking the state of the disk to the next
    state and saying whether it failed. *)
Record OS (Disk : Type) := {
  os_RemoveAll : string → Disk → Disk * option string;
  os_Remove : string → Disk → Disk * option string;
  os_Mkdir : string → Disk → Disk * option string;
  ioutil_WriteFile : string → string → Disk → Disk * option string;
  os_Link : string → string → Disk → Disk * option string
}.
Global Arguments os_RemoveAll {Disk} o loc d.
Global Arguments os_Remove {Disk} o loc d.
Global Arguments os_Mkdir {Disk} o loc d.
Global Arguments ioutil_WriteFile {Disk} o loc data d.
Global Arguments os_Link {Disk} o src dst d.

(** [commit] returns the error of the one call it makes.  [fsWritefile]
    first reads its reader to the end: on the nil reader of an entry that
    could not be opened, [ioutil.ReadAll] dereferences nil and panics. *)
Definition commit {Disk} (os : OS Disk) (c : commiter) (d : Disk)
  : Outcome (Disk * option string) :=
  match c with
  | fsRmdir loc => Returns (os_RemoveAll os loc d)
  | fsRm loc => Returns (os_Remove os loc d)
  | fsMkdir loc => Returns (os_Mkdir os loc d)
  | fsWritefile loc (Some data) => Returns (ioutil_WriteFile os loc data d)
  | fsWritefile loc None => Panics
  | fsLink src dst => Returns (os_Link os src dst d)
  end.

(** The loop, with the record of what it attempted: every change
    committed, the disk it ran on, and what [commit] did, and the disk at
    the end.  A commit that panics is the last one attempted: the panic
    ends the loop, and the program with it. *)
Fixpoint commit_all {Disk} (os : OS Disk) (delta : list commiter) (d : Disk)
  : list (commiter * Disk * Outcome (option string)) * Disk :=
  match delta with
  | [] => ([], d)
  | c :: rest =>
      match commit os c d with
      | Returns (d', err) =>
          let '(log, d'') := commit_all os rest d' in
          ((c, d, Returns err) :: log, d'')
      | Panics | Hangs => ([(c, d, Panics)], d)
      end
  end.

(** ** Vocabulary of the statements *)

Definition archive_kind (sp : Specification) : Prop :=
  spType sp = "curse" ∨ spType sp = "wowace".

Definition is_rmdir (c : commiter) : bool :=
  match c with fsRmdir _ => true | _ => false end.

Definition is_mkdir (c : commiter) : bool :=
  match c with fsMkdir _ => true | _ => false end.

(** [a] lies above [b]: [b] is [a], a slash, and more. *)
Definition ancestor (a b : string) : Prop := ∃ r, b = a +:+ "/" +:+ r.

(** [d] is on the parent chain the planner walks from [pth]: [pth] itself,
    [path.Dir pth], and so on, as long as ["."] is not reached. *)
Inductive on_chain : string → string → Prop :=
| chain_here pth : pth ≠ "." → on_chain pth pth
| chain_up pth d : pth ≠ "." → on_chain (path.Dir pth) d → on_chain pth d.

(** [a] stands before [b] in [l]. *)
Definition before (l : list string) (a b : string) : Prop :=
  ∃ i j, l !! i = Some a ∧ l !! j = Some b ∧ i < j.

(** The disk one commit leaves; a commit that panics leaves it as it
    was. *)
Definition commit_disk {Disk} (os : OS Disk) (d : Disk) (c : commiter) : Disk :=
  match commit os c d with
  | Returns (d', _) => d'
  | Panics | Hangs => d
  end.

(** The change has a reader to read from, if it reads at all. *)
Definition has_reader (c : commiter) : Prop := ∀ loc, c ≠ fsWritefile loc None.

(** An entry that cannot be opened. *)
Definition unopened (n : string) : ZipFile :=
  {| Name := n; ModeDir := false; Data := None |}.

(** A file of the archive and a world in which every request succeeds and
    the archive downloaded holds [files]. *)
Definition file (n : string) : ZipFile :=
  {| Name := n; ModeDir := false; Data := Some ("data of " +:+ n) |}.

Definition serving (files : list ZipFile) : World :=
  {| http_Get := λ u, Ok ("body of " +:+ u);
     goquery_NewDocument := λ _, Ok ["/projects/foo/files/1/download"];
     zip_NewReader := λ _, Ok files |}.

(** The same world, except that the download of the archive fails. *)
Definition zip_unreachable : World :=
  {| http_Get := λ u,
       if decide (u = "https://wow.curseforge.com/projects/foo/files")
       then Ok "index" else Err "connection refused";
     goquery_NewDocument := λ _, Ok ["/projects/foo/files/1/download"];
     zip_NewReader := λ _, Ok [] |}.

Definition fresh (ty : string) (own : list string) : Specification :=
  {| spName := "foo"; spType := ty; Location := "/pkgs/foo"; Branch := "";
     zipData := None; ownDirs := own |}.

(** ** Canonical paths

    What [path.Clean] writes, seen as elements. *)

Fixpoint no_slash (s : string) : bool :=
  match s with
  | "" => true
  | String c s' => negb (Ascii.eqb c "/"%char) && no_slash s'
  end.

(** A real path element: not empty, not [.], not [..], no slash inside. *)
Definition normal (e : string) : Prop :=
  e ≠ "" ∧ e ≠ "." ∧ e ≠ ".." ∧ no_slash e = true.

(** The output buffer of [Clean] on a path that is not rooted, last
    element first: real elements on top of leading [..] elements. *)
Inductive cstack : list string → Prop :=
| cs_nil : cstack []
| cs_dots st : Forall (eq "..") st → cstack (".." :: st)
| cs_norm e st : normal e → cstack st → cstack (e :: st).

(** The string [Clean] returns for a buffer. *)
Definition render (st : list string) : string :=
  match st with
  | [] => "."
  | _ => path.join_slash (reverse st)
  end.

(** Ascending without repetition, bytewise. *)
Definition str_lt (a b : string) : Prop := String.le a b ∧ a ≠ b.

(** ** More vocabulary: writes, requests, where an entry lies *)

Definition is_write (c : commiter) : bool :=
  match c with fsWritefile _ _ => true | _ => false end.

(** The URLs a call asked for, in order. *)
Definition requests (tr : list Event) : list string :=
  omap (λ e, match e with HttpGet u => Some u | Printed _ => None end) tr.

(** [a] stands before [b] in a plan. *)
Definition precedes (l : list commiter) (a b : commiter) : Prop :=
  ∃ i j, l !! i = Some a ∧ l !! j = Some b ∧ i < j.

(** The entry [n] lies in a directory named by real elements only:
    [path.Dir n] is [a], [a/b], [a/b/c], ... *)
Definition well_placed (n : string) : Prop :=
  Forall normal (path.elements (path.Dir n)).

(** What [Download] can work with: the entry [.] (skipped) or an entry
    it can place. *)
Definition Name_is_dot_or_placed (n : string) : Prop :=
  n = "." ∨ well_placed n.

(** The first element of the directory of [n]. *)
Definition top_element (n : string) : option string :=
  head (path.elements (path.Dir n)).

(** What [path.Join(base, d)] puts in front of a [d] of real elements. *)
Definition join_prefix (base : string) : string :=
  if decide (base = "") then ""
  else
    let rt := path.rooted base in
    let out := foldl (path.clean_step rt) [] (path.elements base) in
    (if rt then "/" else "")
    +:+ match out with
        | [] => ""
        | _ => path.join_slash (reverse out) +:+ "/"
        end.

(** ** The configuration file and the commands [add] and [list]

    [wpm.yaml] holds a [Config].  The yaml package sees the exported
    fields only: [zipData] and [ownDirs] are neither written nor read.
    [Addons] is a slice of pointers, [[]*Specification]: an entry is a
    specification or [nil] ([None]), which is what yaml makes of an empty
    list item. *)
Record Installation := {
  Dir : string;
  Addons : list (option Specification)
}.

Record Config := { Installations : list Installation }.

Definition exported_spec (sp : Specification) : Specification :=
  {| spName := spName sp; spType := spType sp; Location := Location sp;
     Branch := Branch sp; zipData := None; ownDirs := [] |}.

Definition exported_inst (i : Installation) : Installation :=
  {| Dir := Dir i; Addons := map (option_map exported_spec) (Addons i) |}.

Definition exported (c : Config) : Config :=
  {| Installations := map exported_inst (Installations c) |}.

Definition errFileNotFound : string := "wpm: file not found".
Definition errFileFormat : string := "wpm: file not formatted correctly".
Definition defaultInstallLocation : string :=
  "C:\Program Files (x86)\World of Warcraft\Interface\AddOns".

(** What the configuration code takes from outside: the environment
    variable, the content of a file ([ioutil.ReadFile]), and the yaml
    package. *)
Record Env := {
  APPDATA : string;
  ioutil_ReadFile : string → result string;
  yaml_Unmarshal : string → result Config;
  yaml_Marshal : Config → result string;
  yaml_Marshal_Installation : Installation → result string
}.

Definition wpmLocation (env : Env) : string :=
  path.Join [APPDATA env; "wpm"; "wpm.yaml"].

Definition readConfig (env : Env) : result Config :=
  match ioutil_ReadFile env (wpmLocation env) with
  | Err _ => Err errFileNotFound
  | Ok d =>
      match yaml_Unmarshal env d with
      | Err _ => Err errFileFormat
      | Ok cfg => Ok (exported cfg)
      end
  end.


(** How a command ends: it runs to its end, [log.Fatalf] stops it with a
    message, or an index is out of range. *)
Inductive Exit :=
| Done
| Fatal (msg : string)
| IndexPanic.

(** The body of the [for i, v := range cfg.Installations] of [add], at
    index [i]: [cfg.Installations[i].Addons = append(v.Addons, new)] when
    the directory is the one asked for; [new] is a pointer to a fresh
    specification. *)
Definition add_at (pth : string) (new : Specification)
    (insts : list Installation) (i : nat) : list Installation :=
  match insts !! i with
  | None => insts
  | Some v =>
      if decide (Dir v ≠ pth) then insts
      else <[i := {| Dir := Dir v; Addons := Addons v ++ [Some new] |}]> insts
  end.

Definition add_loop (pth : string) (new : Specification)
    (insts : list Installation) : list Installation :=
  foldl (add_at pth new) insts (seq 0 (length insts)).


(** The loop of [list]: print the first installation at [p] and return. *)
Fixpoint list_loop (env : Env) (insts : list Installation) (p : string)
  : option string :=
  match insts with
  | [] => None
  | i :: rest =>
      if decide (Dir i ≠ p) then list_loop env rest p
      else Some (match yaml_Marshal_Installation env i with
                 | Ok s => s
                 | Err _ => ""
                 end +:+ String "010" "")
  end.

(** [case "list"], with the value of [-p] after [Parse]; what it prints. *)
Definition cmd_list (env : Env) (p : string) : list string * Exit :=
  match readConfig env with
  | Err e => ([], Fatal ("Unable to load wpm.yaml: " +:+ e +:+ String "010" ""))
  | Ok cfg =>
      if decide (p = "") then
        ([match yaml_Marshal env cfg with Ok s => s | Err _ => "" end
          +:+ String "010" ""], Done)
      else
        match list_loop env (Installations cfg) p with
        | Some out => ([out], Done)
        | None =>
            (["No installations handled at '" +:+ p +:+ "'"
              +:+ String "010" ""], Done)
        end
  end.

(** An operating system on which every call succeeds and the disk is the
    list of the calls made, an environment that reads a given
    configuration, and a configuration with one installation. *)
Definition logging_os : OS (list commiter) :=
  {| os_RemoveAll := λ loc d, ((d ++ [fsRmdir loc])%list, None);
     os_Remove := λ loc d, ((d ++ [fsRm loc])%list, None);
     os_Mkdir := λ loc d, ((d ++ [fsMkdir loc])%list, None);
     ioutil_WriteFile :=
       λ loc data d, ((d ++ [fsWritefile loc (Some data)])%list, None);
     os_Link := λ src dst d, ((d ++ [fsLink src dst])%list, None) |}.

Definition reading (cfg : Config) : Env :=
  {| APPDATA := "C:\Users\me\AppData\Roaming";
     ioutil_ReadFile := λ _, Ok "installations: ...";
     yaml_Unmarshal := λ _, Ok cfg;
     yaml_Marshal := λ _, Err "cannot marshal";
     yaml_Marshal_Installation := λ i, Ok ("dir: " +:+ Dir i) |}.

Definition one_installation : Config :=
  {| Installations :=
       [ {| Dir := "D:\wow"; Addons := [Some (fresh "curse" ["Old"])] |} ] |}.

(** Case analysis on every [decide] of the goal. *)
Ltac decide_cases :=
  repeat match goal with
         | |- context [decide ?P] => destruct (decide P)
         end.

(** The table of Go's own tests of [path.Clean], [path.Split], [path.Join]
    and [path.Dir] (path_test.go), as far as the pipeline exercises them. *)
Example Clean_table :
  map path.Clean
    [""; "abc"; "abc/def"; "a/b/c"; "."; ".."; "../.."; "../../abc"; "/abc";
     "/"; "abc/"; "abc/def/"; "a/b/c/"; "./"; "../"; "../../"; "/abc/";
     "abc//def//ghi"; "//abc"; "///abc"; "//abc//"; "abc//"; "abc/./def";
     "/./abc/def"; "abc/."; "abc/def/ghi/../jkl"; "abc/def/../ghi/../jkl";
     "abc/def/.."; "abc/def/../.."; "/abc/def/../.."; "abc/def/../../..";
     "/abc/def/../../.."; "abc/def/../../../ghi/jkl/../../../mno";
     "abc/./../def"; "abc//./../def"; "abc/../../././../def"]
  = ["."; "abc"; "abc/def"; "a/b/c"; "."; ".."; "../.."; "../../abc"; "/abc";
     "/"; "abc"; "abc/def"; "a/b/c"; "."; ".."; "../.."; "/abc";
     "abc/def/ghi"; "/abc"; "/abc"; "/abc"; "abc"; "abc/def";
     "/abc/def"; "abc"; "abc/def/jkl"; "abc/jkl";
     "abc"; "."; "/"; "..";
     "/"; "../../mno";
     "def"; "def"; "../../def"].
Proof. vm_compute. reflexivity. Qed.

Example Split_table :
  map path.Split ["a/b"; "a/b/"; "a/"; "a"; "/"; ""]
  = [("a/", "b"); ("a/b/", ""); ("a/", ""); ("", "a"); ("/", ""); ("", "")].
Proof. vm_compute. reflexivity. Qed.

Example Join_table :
  map path.Join
    [[]; [""]; ["a"]; ["a"; "b"]; ["a"; ""]; [""; "b"]; ["/"; "a"];
     ["/"; ""]; ["a/"; "b"]; ["a/"; ""]; [""; ""]]
  = [""; ""; "a"; "a/b"; "a"; "b"; "/a"; "/"; "a/b"; "a"; ""].
Proof. vm_compute. reflexivity. Qed.

Example Dir_table :
  map path.Dir
    [""; "."; "/."; "/"; "////"; "/foo"; "x/"; "abc"; "abc/def"; "a/b/.x";
     "a/b/c."; "a/b/c.x"]
  = ["."; "."; "/"; "/"; "/"; "/"; "x"; "."; "abc"; "a/b"; "a/b"; "a/b"].
Proof. vm_compute. reflexivity. Qed.

(** ** Facts about strings and path elements *)

Lemma app_cons c s t : String c s +:+ t = String c (s +:+ t).
Proof. reflexivity. Qed.

Lemma app_nil_l_str s : "" +:+ s = s.
Proof. reflexivity. Qed.

Lemma app_nil_r_str s : s +:+ "" = s.
Proof. induction s as [|c s IH]; [done|]. by rewrite app_cons, IH. Qed.

Lemma app_assoc_str s t u : (s +:+ t) +:+ u = s +:+ (t +:+ u).
Proof. induction s as [|c s IH]; [done|]. by rewrite !app_cons, IH. Qed.

Lemma elements_nonempty s : path.elements s ≠ [].
Proof.
  destruct s as [|c s]; [done|]. cbn.
  destruct (Ascii.eqb c "/"); [done|]. by destruct (path.elements s).
Qed.

Lemma elements_single a : no_slash a = true → path.elements a = [a].
Proof.
  induction a as [|c a IH]; [done|]. cbn. intros [Hc Ha]%andb_true_iff.
  apply negb_true_iff in Hc. rewrite Hc, (IH Ha). done.
Qed.

Lemma elements_app a b :
  no_slash a = true → path.elements (a +:+ String "/" b) = a :: path.elements b.
Proof.
  induction a as [|c a IH]; [done|]. cbn. intros [Hc Ha]%andb_true_iff.
  apply negb_true_iff in Hc. rewrite app_cons. cbn. rewrite Hc, (IH Ha). done.
Qed.

Lemma elements_slash s t :
  path.elements (s +:+ String "/" t) = (path.elements s ++ path.elements t)%list.
Proof.
  induction s as [|c s IH]; [done|]. rewrite app_cons. cbn [path.elements].
  rewrite IH. destruct (Ascii.eqb c "/"); [done|].
  pose proof (elements_nonempty s) as Hne.
  by destruct (path.elements s).
Qed.

Lemma elements_no_slash s : Forall (λ e, no_slash e = true) (path.elements s).
Proof.
  induction s as [|c s IH]; [by repeat constructor|]. cbn.
  destruct (Ascii.eqb c "/") eqn:Hc; [by constructor|].
  destruct (path.elements s) as [|x xs].
  { constructor; [cbn; by rewrite Hc|constructor]. }
  inversion_clear IH as [|?? Hx Hxs]. constructor; [|done]. cbn. by rewrite Hc.
Qed.

Lemma join_slash_cons x y l :
  path.join_slash (x :: y :: l) = x +:+ String "/" (path.join_slash (y :: l)).
Proof. reflexivity. Qed.

Lemma join_slash_snoc l x :
  l ≠ [] → path.join_slash (l ++ [x]) = path.join_slash l +:+ String "/" x.
Proof.
  induction l as [|y l IH]; [done|]. intros _.
  destruct l as [|z l]; [done|].
  change ((y :: z :: l) ++ [x])%list with (y :: (z :: (l ++ [x])))%list.
  rewrite !join_slash_cons. change (z :: l ++ [x])%list with ((z :: l) ++ [x])%list.
  rewrite IH by done. by rewrite app_assoc_str.
Qed.

Lemma elements_join l :
  Forall (λ e, no_slash e = true) l → l ≠ [] →
  path.elements (path.join_slash l) = l.
Proof.
  induction l as [|x l IH]; [done|]. intros Hl _.
  inversion_clear Hl as [|?? Hx Hl'].
  destruct l as [|y l]; [by apply elements_single|].
  rewrite join_slash_cons, elements_app by done. by rewrite IH.
Qed.

Lemma Split_no_slash x : no_slash x = true → path.Split x = ("", x).
Proof.
  induction x as [|c x IH]; [done|]. cbn. intros [Hc Hx]%andb_true_iff.
  apply negb_true_iff in Hc. rewrite (IH Hx). cbn. by rewrite Hc.
Qed.

Lemma Split_app s x :
  no_slash x = true → path.Split (s +:+ String "/" x) = (s +:+ "/", x).
Proof.
  intros Hx. induction s as [|c s IH].
  - change (path.Split (String "/" x) = ("/", x)). cbn [path.Split].
    by rewrite (Split_no_slash x Hx).
  - rewrite app_cons. cbn [path.Split]. rewrite IH.
    destruct (decide (s +:+ "/" = "")) as [He|_]; [|done].
    by destruct s.
Qed.

(** ** What [path.Clean] returns *)

Lemma normal_no_slash e : normal e → no_slash e = true.
Proof. by intros (_&_&_&?). Qed.

Lemma cstack_tail e st : cstack (e :: st) → cstack st.
Proof.
  inversion 1 as [|? Hd|]; subst; [|done].
  destruct Hd as [|? st' <- Hd]; constructor. done.
Qed.

Lemma cstack_no_slash st : cstack st → Forall (λ e, no_slash e = true) st.
Proof.
  induction 1 as [|st Hd|e st He _ IH].
  - constructor.
  - constructor; [done|]. eapply Forall_impl; [exact Hd|]. by intros ? <-.
  - constructor; [by apply normal_no_slash|done].
Qed.

Lemma cstack_nonempty e st : cstack (e :: st) → e ≠ "" ∧ e ≠ ".".
Proof. inversion 1 as [| |?? (?&?&?&?)]; subst; done. Qed.

Lemma clean_step_cstack st e :
  no_slash e = true → cstack st → cstack (path.clean_step false st e).
Proof.
  intros He Hst. unfold path.clean_step.
  destruct (decide (e = "")); [done|]. destruct (decide (e = ".")); [done|].
  destruct (decide (e = "..")) as [->|].
  - destruct st as [|top rest]; [by repeat constructor|].
    destruct (decide (top = "..")) as [->|Hn].
    + constructor. inversion Hst as [|? Hd|?? (?&?&?&?)]; subst; [|done].
      by constructor.
    + by eapply cstack_tail.
  - by constructor.
Qed.

Lemma foldl_cstack l st :
  Forall (λ e, no_slash e = true) l → cstack st →
  cstack (foldl (path.clean_step false) st l).
Proof.
  revert st. induction l as [|e l IH]; intros st Hl Hst; [done|].
  inversion_clear Hl. cbn [foldl]. apply IH; [done|]. by apply clean_step_cstack.
Qed.

(** Cleaning what [Clean] wrote writes it again. *)
Lemma clean_step_push e st :
  cstack (e :: st) → path.clean_step false st e = e :: st.
Proof.
  intros Hst. unfold path.clean_step.
  destruct (cstack_nonempty _ _ Hst) as [? ?].
  destruct (decide (e = "")); [done|]. destruct (decide (e = ".")); [done|].
  destruct (decide (e = "..")) as [->|]; [|done].
  inversion Hst as [|? Hd|?? (?&?&?&?)]; subst; [|done].
  destruct Hd as [|top rest <- _]; [done|]. by destruct (decide (".." = "..")).
Qed.

Lemma foldl_replay st :
  cstack st → foldl (path.clean_step false) [] (reverse st) = st.
Proof.
  induction st as [|e st IH]; [done|]. intros Hst.
  rewrite reverse_cons, foldl_app. cbn [foldl].
  rewrite IH by (by eapply cstack_tail). by apply clean_step_push.
Qed.

Lemma join_slash_first e l :
  ∃ t, path.join_slash (e :: l) = e +:+ t ∧ (l = [] → t = "").
Proof.
  destruct l as [|y l].
  - exists "". by rewrite app_nil_r_str.
  - eexists. by rewrite join_slash_cons.
Qed.

Lemma rooted_app e t : e ≠ "" → path.rooted (e +:+ t) = path.rooted e.
Proof. by destruct e. Qed.

Lemma cstack_elems st :
  cstack st → Forall (λ e, e ≠ "" ∧ e ≠ "." ∧ no_slash e = true) st.
Proof.
  induction st as [|e st IH]; intros Hst; [constructor|].
  constructor; [|by eapply IH, cstack_tail].
  destruct (cstack_nonempty _ _ Hst) as [? ?]. split_and!; [done..|].
  by apply cstack_no_slash, Forall_cons in Hst as [? _].
Qed.

Lemma no_slash_unrooted e : no_slash e = true → path.rooted e = false.
Proof.
  destruct e as [|c e]; [done|]. cbn. intros [Hc _]%andb_true_iff.
  by apply negb_true_iff in Hc.
Qed.

Lemma render_facts st :
  cstack st → st ≠ [] →
  render st = path.join_slash (reverse st)
  ∧ render st ≠ "" ∧ render st ≠ "." ∧ path.rooted (render st) = false
  ∧ path.elements (render st) = reverse st.
Proof.
  intros Hst Hne.
  assert (render st = path.join_slash (reverse st)) as Hr by (by destruct st).
  pose proof (cstack_elems st Hst) as Hall.
  assert (path.elements (render st) = reverse st) as Hel.
  { rewrite Hr. apply elements_join.
    - apply Forall_reverse. by apply cstack_no_slash.
    - intros Hrv. apply Hne. by rewrite <-(reverse_involutive st), Hrv. }
  assert (∀ x, reverse st = [x] → st = [x]) as Hone.
  { intros x Hx. by rewrite <-(reverse_involutive st), Hx. }
  split_and!; [done| | | |done].
  - intros Hs. rewrite Hs in Hel. symmetry in Hel. apply Hone in Hel. subst st.
    by apply Forall_cons in Hall as [(?&?&?) _].
  - intros Hs. rewrite Hs in Hel. symmetry in Hel. apply Hone in Hel. subst st.
    by apply Forall_cons in Hall as [(?&?&?) _].
  - rewrite Hr. apply Forall_reverse in Hall.
    destruct (reverse st) as [|e l] eqn:Hrv.
    { exfalso. apply Hne. by rewrite <-(reverse_involutive st), Hrv. }
    apply Forall_cons in Hall as [(?&?&?) _].
    destruct (join_slash_first e l) as (t & -> & _).
    rewrite rooted_app by done. by apply no_slash_unrooted.
Qed.

(** [Clean] on a path that is not rooted returns a canonical path. *)
Lemma Clean_unrooted p :
  path.rooted p = false → ∃ st, cstack st ∧ path.Clean p = render st.
Proof.
  intros Hp. unfold path.Clean. destruct (decide (p = "")).
  { exists []. split; [constructor|done]. }
  rewrite Hp. cbn zeta.
  set (st := foldl (path.clean_step false) [] (path.elements p)).
  assert (cstack st) as Hst.
  { apply foldl_cstack; [apply elements_no_slash|constructor]. }
  exists st. split; [done|]. rewrite app_nil_l_str.
  destruct (decide (st = [])) as [->|Hne]; [done|].
  destruct (render_facts st Hst Hne) as (Hr & Hnn & _).
  rewrite <-Hr. by destruct (decide (render st = "")).
Qed.

Lemma Clean_rooted p : path.rooted p = true → path.rooted (path.Clean p) = true.
Proof.
  intros Hp. unfold path.Clean. destruct (decide (p = "")) as [->|]; [done|].
  rewrite Hp. cbn zeta. by destruct (decide _).
Qed.

Lemma Split_dir p :
  (path.Split p).1 = "" ∨ path.rooted (path.Split p).1 = path.rooted p.
Proof.
  destruct p as [|c p]; [by left|]. cbn [path.Split].
  destruct (path.Split p) as [d f]. destruct (decide (d = "")).
  - destruct (Ascii.eqb c "/") eqn:Hc; [right; cbn; by rewrite Hc|by left].
  - by right.
Qed.

Lemma Dir_unrooted p :
  path.rooted p = false → ∃ st, cstack st ∧ path.Dir p = render st.
Proof.
  intros Hp. unfold path.Dir. apply Clean_unrooted.
  destruct (Split_dir p) as [Hs|Hs]; by rewrite Hs.
Qed.

Lemma Dir_rooted p : path.rooted p = true → path.rooted (path.Dir p) = true.
Proof.
  intros Hp. unfold path.Dir. apply Clean_rooted.
  destruct p as [|c p]; [done|]. cbn in Hp. cbn [path.Split].
  destruct (path.Split p) as [d f]. rewrite Hp.
  by destruct (decide (d = "")); cbn; rewrite ?Hp.
Qed.

(** The parent of a canonical path is the path without its last element. *)
Lemma Dir_render e st : cstack (e :: st) → path.Dir (render (e :: st)) = render st.
Proof.
  intros Hst. pose proof (cstack_tail _ _ Hst) as Hst'.
  pose proof (cstack_no_slash _ Hst) as [He _]%Forall_cons.
  unfold path.Dir. cbn [render]. rewrite reverse_cons.
  destruct (decide (st = [])) as [->|Hne].
  { cbn. by rewrite Split_no_slash. }
  destruct (render_facts st Hst' Hne) as (Hr & Hnn & Hnd & Hrt & Hel).
  rewrite join_slash_snoc, <-Hr, Split_app by
    (done || (intros Hrv; apply Hne; by rewrite <-(reverse_involutive st), Hrv)).
  cbn [fst]. unfold path.Clean.
  destruct (decide (render st +:+ "/" = "")) as [He0|_].
  { by destruct (render st). }
  rewrite rooted_app, Hrt by done. cbn zeta.
  change "/" with (String "/" ""). rewrite elements_slash, Hel, foldl_app.
  rewrite foldl_replay by done. cbn [path.elements foldl].
  unfold path.clean_step. destruct (decide ("" = "")); [|done].
  rewrite app_nil_l_str, <-Hr. by destruct (decide (render st = "")).
Qed.

(** ** Termination of the planner's walk up the parents *)

Lemma dir_chain_mono fuel fuel' pth dirs dirs' :
  dir_chain fuel pth dirs = Some dirs' → (fuel ≤ fuel')%nat →
  dir_chain fuel' pth dirs = Some dirs'.
Proof.
  revert fuel' pth dirs. induction fuel as [|n IH]; intros fuel' pth dirs; [done|].
  intros Hd Hle. destruct fuel' as [|m]; [lia|]. cbn in *.
  destruct (decide (pth = ".")); [done|]. apply (IH m) in Hd; [done|lia].
Qed.

Lemma dir_chain_render st dirs :
  cstack st → is_Some (dir_chain (S (length st)) (render st) dirs).
Proof.
  revert dirs. induction st as [|e st IH]; intros dirs Hst; [by eexists|].
  destruct (render_facts _ Hst) as (_ & _ & Hnd & _); [done|].
  cbn [dir_chain length]. destruct (decide (render (e :: st) = ".")); [done|].
  rewrite Dir_render by done. apply IH. by eapply cstack_tail.
Qed.

Lemma dir_chain_rooted fuel pth dirs :
  path.rooted pth = true → dir_chain fuel pth dirs = None.
Proof.
  revert pth dirs. induction fuel as [|n IH]; intros pth dirs Hr; [done|].
  cbn. destruct (decide (pth = ".")) as [->|]; [done|].
  apply IH. by apply Dir_rooted.
Qed.

Lemma new_dirs_mono fuel fuel' files dirs dirs' :
  new_dirs fuel files dirs = Some dirs' → (fuel ≤ fuel')%nat →
  new_dirs fuel' files dirs = Some dirs'.
Proof.
  revert dirs. induction files as [|f files IH]; intros dirs; [done|].
  cbn. destruct (dir_chain fuel _ _) as [d1|] eqn:Hd; [|done].
  intros Hn Hle. rewrite (dir_chain_mono _ _ _ _ _ Hd Hle). by apply IH.
Qed.

Lemma new_dirs_terminates files dirs :
  Forall (λ f, path.rooted (Name f) = false) files →
  ∃ fuel0, ∀ fuel, (fuel0 ≤ fuel)%nat → is_Some (new_dirs fuel files dirs).
Proof.
  revert dirs. induction files as [|f files IH]; intros dirs Hall.
  { exists 0. by eexists. }
  inversion_clear Hall as [|?? Hf Hfs].
  destruct (Dir_unrooted _ Hf) as (st & Hst & Hdir).
  destruct (dir_chain_render st dirs Hst) as [d1 Hd1].
  destruct (IH d1 Hfs) as [fuel1 H1].
  exists (S (length st) `max` fuel1). intros fuel Hle. cbn [new_dirs].
  rewrite Hdir, (dir_chain_mono _ fuel _ _ _ Hd1) by lia. apply H1. lia.
Qed.

Lemma new_dirs_unrooted fuel files dirs dirs' :
  new_dirs fuel files dirs = Some dirs' →
  Forall (λ f, path.rooted (Name f) = false) files.
Proof.
  revert dirs. induction files as [|f files IH]; intros dirs; [constructor|].
  cbn. destruct (dir_chain fuel _ _) as [d1|] eqn:Hd; [|done].
  intros Hn. constructor; [|by eapply IH].
  destruct (path.rooted (Name f)) eqn:Hr; [|done].
  by rewrite dir_chain_rooted in Hd by (by apply Dir_rooted).
Qed.

(** ** The directory list of the planner *)

Lemma on_chain_step pth d :
  pth ≠ "." → on_chain pth d ↔ d = pth ∨ on_chain (path.Dir pth) d.
Proof.
  intros Hp. split.
  - inversion 1; subst; auto.
  - intros [->|Hc]; [by apply chain_here|by apply chain_up].
Qed.

Lemma on_chain_dot d : ¬ on_chain "." d.
Proof. inversion 1; done. Qed.

Lemma dir_chain_spec fuel pth dirs dirs' :
  dir_chain fuel pth dirs = Some dirs' →
  ∀ d, d ∈ dom dirs' ↔ d ∈ dom dirs ∨ on_chain pth d.
Proof.
  revert pth dirs. induction fuel as [|n IH]; intros pth dirs; [done|]. cbn.
  destruct (decide (pth = ".")) as [->|Hp].
  - intros [= <-] d. pose proof (on_chain_dot d). tauto.
  - intros Hd d. rewrite (IH _ _ Hd), dom_insert_L, (on_chain_step pth d Hp).
    set_solver.
Qed.

Lemma new_dirs_spec fuel files dirs dirs' :
  new_dirs fuel files dirs = Some dirs' →
  ∀ d, d ∈ dom dirs' ↔
       d ∈ dom dirs ∨ ∃ f, f ∈ files ∧ on_chain (path.Dir (Name f)) d.
Proof.
  revert dirs. induction files as [|f files IH]; intros dirs; cbn.
  - intros [= <-] d. set_solver.
  - destruct (dir_chain fuel _ _) as [d1|] eqn:Hd; [|done].
    intros Hn d. rewrite (IH _ Hn), (dir_chain_spec _ _ _ _ Hd). set_solver.
Qed.

(** Everything on a chain that starts at a canonical path is canonical. *)
Lemma on_chain_canon pth d :
  on_chain pth d → ∀ st, cstack st → pth = render st →
  ∃ e st', cstack (e :: st') ∧ d = render (e :: st').
Proof.
  induction 1 as [pth Hp|pth d Hp _ IH]; intros st Hst ->.
  - destruct st as [|e st]; [done|]. by exists e, st.
  - destruct st as [|e st]; [done|]. apply (IH st).
    + by eapply cstack_tail.
    + by apply Dir_render.
Qed.

Lemma on_chain_parent pth d :
  on_chain pth d → path.Dir d ≠ "." → on_chain pth (path.Dir d).
Proof.
  induction 1 as [pth Hp|pth d Hp _ IH]; intros Hd.
  - apply chain_up; [done|]. by apply chain_here.
  - apply chain_up; [done|]. by apply IH.
Qed.

Lemma render_ancestor e st :
  st ≠ [] → ancestor (render st) (render (e :: st)).
Proof.
  intros Hne. exists e. cbn [render]. rewrite reverse_cons, join_slash_snoc.
  - by destruct st.
  - intros Hrv. apply Hne. by rewrite <-(reverse_involutive st), Hrv.
Qed.

(** *** Bytewise order and prefixes *)

Lemma compare_prefix a r : String.compare a (a +:+ r) ≠ Gt.
Proof.
  induction a as [|c a IH]; [by destruct r|]. rewrite app_cons. cbn.
  unfold Ascii.compare. by rewrite N.compare_refl.
Qed.

Lemma le_prefix a r : String.le a (a +:+ r).
Proof.
  unfold String.le, String.leb. pose proof (compare_prefix a r).
  by destruct (String.compare a (a +:+ r)).
Qed.

Lemma ancestor_lt a b : ancestor a b → str_lt a b.
Proof.
  intros [r ->]. split; [apply le_prefix|].
  intros Heq. rewrite <-(app_nil_r_str a) in Heq at 1.
  by apply (inj (String.app a)) in Heq.
Qed.

(** *** Sorted lists *)

Lemma StronglySorted_lookup {A} (R : relation A) l i j x y :
  StronglySorted R l → l !! i = Some x → l !! j = Some y → i < j → R x y.
Proof.
  intros Hs. revert i j. induction Hs as [|z l Hs IH Hz]; intros i j; [done|].
  destruct i as [|i], j as [|j]; cbn; try lia.
  - intros [= <-] Hy _. rewrite Forall_forall in Hz. apply Hz.
    by eapply list_elem_of_lookup_2.
  - intros Hx Hy Hij. apply (IH i j); [done..|lia].
Qed.

Lemma StronglySorted_strict l :
  StronglySorted String.le l → NoDup l → StronglySorted str_lt l.
Proof.
  induction 1 as [|x l Hs IH Hx]; intros Hnd; [constructor|].
  apply NoDup_cons in Hnd as [Hxl Hnd]. constructor; [by apply IH|].
  rewrite Forall_forall in Hx |- *. intros y Hy. split; [by apply Hx|].
  intros ->. done.
Qed.

Lemma sorted_before l a b :
  StronglySorted str_lt l → a ∈ l → b ∈ l → str_lt a b → before l a b.
Proof.
  intros Hs [i Hi]%list_elem_of_lookup_1 [j Hj]%list_elem_of_lookup_1 [Hle Hne].
  exists i, j. split_and!; [done..|].
  destruct (decide (i < j)) as [|Hge]; [done|]. exfalso.
  destruct (decide (i = j)) as [->|]; [congruence|].
  assert (str_lt b a) as [Hle' _].
  { eapply (StronglySorted_lookup _ l j i); [done..|lia]. }
  apply Hne. by apply (anti_symm String.le).
Qed.

Lemma sort_Strings_keys ord (s : gset string) :
  StronglySorted str_lt (sort_Strings (range_keys ord s))
  ∧ ∀ d, d ∈ sort_Strings (range_keys ord s) ↔ d ∈ s.
Proof.
  assert (sort_Strings (range_keys ord s) ≡ₚ elements s) as Hp.
  { unfold sort_Strings. by rewrite merge_sort_Permutation, range_keys_perm. }
  split.
  - apply StronglySorted_strict.
    + apply (StronglySorted_merge_sort String.le).
    + rewrite Hp. apply NoDup_elements.
  - intros d. by rewrite Hp, elem_of_elements.
Qed.

Lemma filter_map_keep {A} (P : commiter → bool) (f : A → commiter) l :
  (∀ x, P (f x) = true) → filter P (map f l) = map f l.
Proof.
  intros Hf. induction l as [|x l IH]; [done|]. cbn [map].
  rewrite filter_cons_True by (by rewrite Hf). by rewrite IH.
Qed.

Lemma filter_map_drop {A} (P : commiter → bool) (f : A → commiter) l :
  (∀ x, P (f x) = false) → filter P (map f l) = [].
Proof.
  intros Hf. induction l as [|x l IH]; [done|]. cbn [map].
  rewrite filter_cons_False; [done|]. rewrite Hf. by intros [].
Qed.

Lemma filter_mkdir_plan base own dirSl files :
  filter is_mkdir (plan_archive base own dirSl files)
  = map (λ s, fsMkdir (path.Join [base; s])) dirSl.
Proof.
  unfold plan_archive. rewrite !filter_app.
  rewrite (filter_map_keep is_mkdir (λ s, fsMkdir (path.Join [base; s]))) by done.
  rewrite !filter_map_drop by done. by rewrite app_nil_r.
Qed.

(** ** Kinds the switch does not know, [ignore] and [link] *)

(** C7: a [link] specification plans exactly [RemoveTree(base/name)]
    followed by [Link(location, base/name)], whatever [ownDirs] holds and
    without looking at the disk. *)
Theorem PlanChanges_link ord fuel base sp :
  spType sp = "link" →
  PlanChanges ord fuel base sp =
    {| trace := [];
       outcome := Returns [fsRmdir (path.Join [base; spName sp]);
                           fsLink (Location sp) (path.Join [base; spName sp])] |}.
Proof.
  intros Hty. unfold PlanChanges. rewrite Hty.
  decide_cases; intuition congruence.
Qed.

Lemma PlanChanges_link_witness :
  PlanChanges elements_order 0 "base" (fresh "link" ["Old"]) =
    {| trace := [];
       outcome := Returns [fsRmdir "base/foo"; fsLink "/pkgs/foo" "base/foo"] |}.
Proof. apply (PlanChanges_link elements_order 0 "base" (fresh "link" ["Old"])). reflexivity. Defined.

(** C10: for a [Type] that is none of [curse], [wowace], [ignore], [link],
    [Download] returns the specification as it was, with no request sent
    and nothing printed, and [PlanChanges] returns no change. *)
Theorem unknown_kind_untouched w ord fuel base sp :
  spType sp ∉ ["curse"; "wowace"; "ignore"; "link"] →
  Download w ord fuel sp = {| trace := []; outcome := Returns sp |}
  ∧ PlanChanges ord fuel base sp = {| trace := []; outcome := Returns [] |}.
Proof.
  intros Hty. rewrite !not_elem_of_cons in Hty.
  destruct Hty as (?&?&?&?&_).
  unfold Download, PlanChanges.
  split; decide_cases; intuition congruence.
Qed.

Lemma unknown_kind_untouched_witness :
  Download zip_unreachable elements_order 0 (fresh "git" ["Old"])
    = {| trace := []; outcome := Returns (fresh "git" ["Old"]) |}
  ∧ PlanChanges elements_order 0 "base" (fresh "git" ["Old"])
    = {| trace := []; outcome := Returns [] |}.
Proof.
  apply (unknown_kind_untouched zip_unreachable elements_order 0 "base"
           (fresh "git" ["Old"])).
  apply (bool_decide_unpack _). vm_compute. exact I.
Defined.

(** ** The commit loop *)

Lemma commit_has_reader {Disk} (os : OS Disk) c d :
  has_reader c → ∃ d' err, commit os c d = Returns (d', err).
Proof.
  intros Hc. destruct c as [| | |loc [data|]|]; cbn [commit];
    try (by destruct (_ : Disk * option string); eauto).
  by destruct (Hc loc).
Qed.

Lemma commit_disk_returns {Disk} (os : OS Disk) c d d' err :
  commit os c d = Returns (d', err) → commit_disk os d c = d'.
Proof. intros H. unfold commit_disk. by rewrite H. Qed.

(** As long as every change has its reader, whatever the operating system
    answers to each commit, the loop attempts every change of the sequence
    once, in the sequence's order.  Each attempt runs on the disk its
    predecessor left and reports what [commit] returned there, so nothing
    is undone and nothing is tried again. *)
Lemma commit_all_attempts_everything {Disk} (os : OS Disk) delta d :
  Forall has_reader delta →
  map (λ e, e.1.1) (commit_all os delta d).1 = delta
  ∧ (commit_all os delta d).2 = foldl (commit_disk os) d delta
  ∧ ∀ i c di r, (commit_all os delta d).1 !! i = Some (c, di, r) →
      di = foldl (commit_disk os) d (take i delta)
      ∧ ∃ d' err, commit os c di = Returns (d', err) ∧ r = Returns err.
Proof.
  intros Hall. revert d. induction Hall as [|c delta Hc _ IH]; intros d.
  - split; [done|]. split; [done|]. intros [|?] ??? Hi; discriminate Hi.
  - destruct (commit_has_reader os c d Hc) as (d' & err & Hcd).
    cbn [commit_all foldl take]. rewrite Hcd, (commit_disk_returns _ _ _ _ _ Hcd).
    destruct (IH d') as (Hmap & Hfin & Hlog).
    destruct (commit_all os delta d') as [log d''] eqn:Hrest. cbn [fst snd] in *.
    split; [cbn [map]; by rewrite Hmap|]. split; [done|].
    intros [|i] c' di r Hi; cbn in Hi.
    + injection Hi as <- <- <-. split; [done|]. eauto.
    + cbn [take foldl]. rewrite (commit_disk_returns _ _ _ _ _ Hcd). by apply Hlog.
Qed.

(** C8 fails on the code where an entry of the archive cannot be opened:
    [PlanChanges] drops the error of [f.Open()] and plans the [WriteFile]
    with a nil reader, and its [commit] panics on it.  The loop attempts
    the changes before it and this one, on the disk they left, and no
    change after it: the panic ends the loop. *)
Theorem commit_all_stops_at_unopened_entry
    {Disk} (os : OS Disk) pre loc post d :
  Forall has_reader pre →
  map (λ e, e.1.1) (commit_all os (pre ++ fsWritefile loc None :: post) d).1
  = (pre ++ [fsWritefile loc None])%list
  ∧ last (commit_all os (pre ++ fsWritefile loc None :: post) d).1
    = Some (fsWritefile loc None, foldl (commit_disk os) d pre, Panics)
  ∧ (commit_all os (pre ++ fsWritefile loc None :: post) d).2
    = foldl (commit_disk os) d pre.
Proof.
  intros Hall. revert d. induction Hall as [|c pre Hc _ IH]; intros d.
  - done.
  - destruct (commit_has_reader os c d Hc) as (d' & err & Hcd).
    cbn [app commit_all foldl]. rewrite Hcd, (commit_disk_returns _ _ _ _ _ Hcd).
    destruct (IH d') as (Hmap & Hlast & Hfin).
    destruct (commit_all os (pre ++ fsWritefile loc None :: post) d')
      as [log d''] eqn:Hrest. cbn [fst snd] in *.
    split; [cbn [map]; by rewrite Hmap|]. split; [|done].
    destruct log as [|e log]; [done|]. by rewrite last_cons_cons.
Qed.

Lemma commit_all_stops_at_unopened_entry_witness :
  outcome (PlanChanges elements_order 4 "base"
             {| spName := "foo"; spType := "curse"; Location := "";
                Branch := ""; ownDirs := [];
                zipData := Some [unopened "Foo/a.lua"; file "Foo/b.lua"] |})
  = Returns ([fsMkdir "base/Foo"]
             ++ fsWritefile "base/Foo/a.lua" None
             :: [fsWritefile "base/Foo/b.lua" (Some "data of Foo/b.lua")])%list
  ∧ map (λ e, e.1.1)
      (commit_all logging_os
         ([fsMkdir "base/Foo"]
          ++ fsWritefile "base/Foo/a.lua" None
          :: [fsWritefile "base/Foo/b.lua" (Some "data of Foo/b.lua")])%list
         []).1
    = [fsMkdir "base/Foo"; fsWritefile "base/Foo/a.lua" None].
Proof.
  split; [vm_compute; reflexivity|].
  apply (commit_all_stops_at_unopened_entry logging_os [fsMkdir "base/Foo"]
           "base/Foo/a.lua"
           [fsWritefile "base/Foo/b.lua" (Some "data of Foo/b.lua")] []).
  repeat constructor. intros loc. discriminate.
Defined.

(** ** [Download] and [PlanChanges] on an archive kind *)

Lemma index_url_nonempty sp :
  archive_kind sp → index_url (spType sp) (spName sp) ≠ "".
Proof.
  intros [Hty|Hty]; unfold index_url; rewrite Hty; decide_cases; try congruence;
    discriminate.
Qed.

(** [Download] unfolded on an archive kind. *)
Lemma Download_archive w ord fuel sp :
  archive_kind sp →
  Download w ord fuel sp =
    let u := index_url (spType sp) (spName sp) in
    match http_Get w u with
    | Err e =>
        {| trace := [HttpGet u;
                     Printed ("Unable to get the index for " +:+ spName sp
                              +:+ ": " +:+ e +:+ String "010" "")];
           outcome := Returns sp |}
    | Ok body =>
        match goquery_NewDocument w body with
        | Err e =>
            {| trace := [HttpGet u;
                         Printed ("Unable to parse the returned document "
                                  +:+ "into goquery: " +:+ e)];
               outcome := Returns sp |}
        | Ok doc =>
            {| trace := HttpGet u :: (fetch_zip w sp doc).1;
               outcome :=
                 match zipData (fetch_zip w sp doc).2 with
                 | None => Panics
                 | Some files =>
                     match own_dirs fuel files ∅ with
                     | None => Hangs
                     | Some dirs =>
                         Returns (set_ownDirs (fetch_zip w sp doc).2
                                    (range_keys ord dirs))
                     end
                 end |}
        end
    end.
Proof.
  intros Hk. pose proof (index_url_nonempty sp Hk) as Hu.
  unfold Download. destruct (decide (spType sp = "curse" ∨ spType sp = "wowace"));
    [|done].
  destruct (decide (index_url (spType sp) (spName sp) = "")); [done|].
  cbn zeta. destruct (http_Get w _); [|done].
  destruct (goquery_NewDocument w _); [|done].
  by destruct (fetch_zip w sp _).
Qed.

Lemma PlanChanges_archive ord fuel base sp :
  archive_kind sp →
  PlanChanges ord fuel base sp =
    match zipData sp with
    | None => {| trace := [Printed ("nil data" +:+ String "010" "")];
                 outcome := Returns [] |}
    | Some files =>
        {| trace := [];
           outcome :=
             match new_dirs fuel files ∅ with
             | None => Hangs
             | Some dirs =>
                 Returns (plan_archive base (ownDirs sp)
                            (sort_Strings (range_keys ord (dom dirs))) files)
             end |}
    end.
Proof.
  intros Hk. unfold PlanChanges.
  by destruct (decide (spType sp = "curse" ∨ spType sp = "wowace")).
Qed.

Lemma fetch_zip_spType w sp doc : spType (fetch_zip w sp doc).2 = spType sp.
Proof.
  unfold fetch_zip. destruct doc as [|href ?]; [done|].
  by destruct (http_Get w _).
Qed.

Lemma Download_spType w ord fuel sp sp1 :
  outcome (Download w ord fuel sp) = Returns sp1 → spType sp1 = spType sp.
Proof.
  destruct (decide (archive_kind sp)) as [Hk|Hk].
  - rewrite Download_archive by done. cbn zeta.
    destruct (http_Get w _); [|by intros [= <-]].
    destruct (goquery_NewDocument w _) as [doc|]; [|by intros [= <-]].
    cbn [outcome]. destruct (zipData _); [|done].
    destruct (own_dirs _ _ _); [|done].
    intros [= <-]. apply fetch_zip_spType.
  - unfold Download. destruct (decide (spType sp = "curse" ∨ spType sp = "wowace"));
      [done|].
    decide_cases; by intros [= <-].
Qed.

Lemma filter_rmdir_plan base own dirSl files :
  filter is_rmdir (plan_archive base own dirSl files)
  = map (λ d, fsRmdir (path.Join [base; d])) own.
Proof.
  unfold plan_archive. rewrite !filter_app.
  assert (∀ (A : Type) (f : A → string) l,
            filter is_rmdir (map (λ x, fsRmdir (f x)) l) = map (λ x, fsRmdir (f x)) l)
    as Hr.
  { intros A f l. induction l as [|x l IH]; [done|]. cbn [map].
    rewrite filter_cons_True by done. by rewrite IH. }
  assert (∀ (A : Type) (f : A → commiter) l,
            (∀ x, is_rmdir (f x) = false) → filter is_rmdir (map f l) = [])
    as Hn.
  { intros A f l Hf. induction l as [|x l IH]; [done|]. cbn [map].
    rewrite filter_cons_False; [done|]. rewrite Hf. by intros []. }
  rewrite (Hr _ (λ d, path.Join [base; d])).
  rewrite !Hn by done. by rewrite app_nil_r.
Qed.

(** What [Download] leaves in the specification when it returns after it
    has read the index and its document: the archive now in [zipData], and
    [ownDirs] set from that archive's entries. *)
Lemma Download_archive_returns w ord fuel sp sp1 body doc :
  archive_kind sp →
  http_Get w (index_url (spType sp) (spName sp)) = Ok body →
  goquery_NewDocument w body = Ok doc →
  outcome (Download w ord fuel sp) = Returns sp1 →
  ∃ files dirs, zipData (fetch_zip w sp doc).2 = Some files
                ∧ zipData sp1 = Some files
                ∧ own_dirs fuel files ∅ = Some dirs
                ∧ ownDirs sp1 = range_keys ord dirs.
Proof.
  intros Hk Hidx Hdoc. rewrite Download_archive by done. cbn zeta.
  rewrite Hidx, Hdoc. cbn [outcome].
  destruct (zipData _) as [files|] eqn:Hz; [|done].
  destruct (own_dirs _ _ _) as [dirs|] eqn:Hd; [|done].
  intros [= <-]. by exists files, dirs.
Qed.

(** C1, as the code has it: the [RemoveTree] changes of [PlanChanges] are
    one [RemoveTree(base/d)] for each [d] of [ownDirs] as it stands when
    [PlanChanges] runs, in that order (and none when there is no archive).
    After a [Download] of the same run that read the index and its
    document, [ownDirs] is the key list of the set computed from the
    entries of the archive now held: what it held before the run plays no
    part. *)
Theorem PlanChanges_removes_current_ownDirs
    w ord ord' fuel fuel' base sp sp1 changes :
  archive_kind sp →
  outcome (Download w ord fuel sp) = Returns sp1 →
  outcome (PlanChanges ord' fuel' base sp1) = Returns changes →
  filter is_rmdir changes =
    match zipData sp1 with
    | None => []
    | Some _ => map (λ d, fsRmdir (path.Join [base; d])) (ownDirs sp1)
    end
  ∧ ∀ body doc,
      http_Get w (index_url (spType sp) (spName sp)) = Ok body →
      goquery_NewDocument w body = Ok doc →
      ∃ files dirs, zipData (fetch_zip w sp doc).2 = Some files
                    ∧ zipData sp1 = Some files
                    ∧ own_dirs fuel files ∅ = Some dirs
                    ∧ ownDirs sp1 = range_keys ord dirs.
Proof.
  intros Hk Hd Hp. split; [|intros body doc ??; by eapply Download_archive_returns].
  assert (archive_kind sp1) as Hk1.
  { unfold archive_kind. by rewrite (Download_spType _ _ _ _ _ Hd). }
  rewrite PlanChanges_archive in Hp by done.
  destruct (zipData sp1) as [files|]; cbn [outcome] in Hp.
  - destruct (new_dirs _ _ _); [|done]. injection Hp as <-.
    apply filter_rmdir_plan.
  - by injection Hp as <-.
Qed.

Lemma PlanChanges_removes_current_ownDirs_witness :
  filter is_rmdir
    [fsRmdir "base/Foo"; fsMkdir "base/Foo"; fsMkdir "base/Foo/sub";
     fsWritefile "base/Foo/sub/b.lua" (Some "data of Foo/sub/b.lua")]
  = [fsRmdir "base/Foo"].
Proof.
  pose proof (PlanChanges_removes_current_ownDirs
                (serving [file "Foo/sub/b.lua"]) elements_order elements_order
                4 4 "base" (fresh "curse" ["Old"])
                {| spName := "foo"; spType := "curse"; Location := "/pkgs/foo";
                   Branch := ""; zipData := Some [file "Foo/sub/b.lua"];
                   ownDirs := ["Foo"] |}
                [fsRmdir "base/Foo"; fsMkdir "base/Foo"; fsMkdir "base/Foo/sub";
                 fsWritefile "base/Foo/sub/b.lua" (Some "data of Foo/sub/b.lua")]) as H.
  apply H.
  - left. reflexivity.
  - vm_compute. reflexivity.
  - vm_compute. reflexivity.
Defined.

(** C1, as stated, fails: a specification that owned [Old] before the run
    and fetches an archive holding only [Foo/sub/b.lua] gets the single
    removal [RemoveTree(base/Foo)]; [base/Old] is not removed.  The same
    removal is planned when it owned nothing before the run. *)
Lemma previous_ownDirs_not_removed :
  (∃ sp1 changes,
     outcome (Download (serving [file "Foo/sub/b.lua"]) elements_order 4
                (fresh "curse" ["Old"])) = Returns sp1
     ∧ outcome (PlanChanges elements_order 4 "base" sp1) = Returns changes
     ∧ filter is_rmdir changes = [fsRmdir "base/Foo"]
     ∧ filter is_rmdir changes
       ≠ map (λ d, fsRmdir (path.Join ["base"; d]))
             (ownDirs (fresh "curse" ["Old"])))
  ∧ (∃ sp1 changes,
       outcome (Download (serving [file "Foo/sub/b.lua"]) elements_order 4
                  (fresh "curse" [])) = Returns sp1
       ∧ outcome (PlanChanges elements_order 4 "base" sp1) = Returns changes
       ∧ filter is_rmdir changes = [fsRmdir "base/Foo"]
       ∧ filter is_rmdir changes
         ≠ map (λ d, fsRmdir (path.Join ["base"; d]))
               (ownDirs (fresh "curse" []))).
Proof.
  split.
  - eexists _, _. split; [vm_compute; reflexivity|].
    split; [vm_compute; reflexivity|].
    split; [vm_compute; reflexivity|].
    vm_compute. discriminate.
  - eexists _, _. split; [vm_compute; reflexivity|].
    split; [vm_compute; reflexivity|].
    split; [vm_compute; reflexivity|].
    vm_compute. discriminate.
Qed.

(** ** Failures during [Download] *)

(** A failure to get or to read the index is printed, [Download] returns
    the specification untouched, and [PlanChanges] then plans nothing for a
    specification that holds no archive. *)
Lemma Download_index_failure w ord ord' fuel fuel' base sp :
  archive_kind sp → zipData sp = None →
  (∃ e, http_Get w (index_url (spType sp) (spName sp)) = Err e)
  ∨ (∃ body e, http_Get w (index_url (spType sp) (spName sp)) = Ok body
               ∧ goquery_NewDocument w body = Err e) →
  (∃ msg, trace (Download w ord fuel sp)
          = [HttpGet (index_url (spType sp) (spName sp)); Printed msg])
  ∧ outcome (Download w ord fuel sp) = Returns sp
  ∧ outcome (PlanChanges ord' fuel' base sp) = Returns [].
Proof.
  intros Hk Hz Hfail. rewrite PlanChanges_archive, Hz by done.
  rewrite Download_archive by done. cbn zeta.
  destruct Hfail as [[e ->]|(body & e & -> & ->)]; eauto.
Qed.

(** C4 fails on the code where the archive itself cannot be had.  When the
    index and its document are read but the download of the archive fails,
    or its bytes are no archive, [sp.zipData] stays nil and the loop over
    [sp.zipData.File] dereferences it: [Download] panics instead of
    returning, so no [PlanChanges] follows. *)
Theorem Download_panics_without_archive w ord fuel sp body href rest :
  archive_kind sp → zipData sp = None →
  http_Get w (index_url (spType sp) (spName sp)) = Ok body →
  goquery_NewDocument w body = Ok (href :: rest) →
  (∀ b, http_Get w (site (spType sp) +:+ href) = Ok b →
        ∃ e, zip_NewReader w b = Err e) →
  outcome (Download w ord fuel sp) = Panics
  ∧ (trace (Download w ord fuel sp)
       = [HttpGet (index_url (spType sp) (spName sp));
          HttpGet (site (spType sp) +:+ href)]
     ∨ trace (Download w ord fuel sp)
       = [HttpGet (index_url (spType sp) (spName sp));
          HttpGet (site (spType sp) +:+ href);
          Printed "Error getting zip."]).
Proof.
  intros Hk Hz Hidx Hdoc Hzip. rewrite Download_archive by done.
  cbn zeta. rewrite Hidx, Hdoc. cbn [fetch_zip trace outcome].
  destruct (http_Get w (site _ +:+ href)) as [b|e] eqn:Hget; cbn [fst snd].
  - destruct (Hzip b eq_refl) as [e ->]. cbn. auto.
  - rewrite Hz. auto.
Qed.

Lemma Download_panics_without_archive_witness :
  outcome (Download zip_unreachable elements_order 4 (fresh "curse" ["Old"]))
  = Panics.
Proof.
  apply (Download_panics_without_archive zip_unreachable elements_order 4
           (fresh "curse" ["Old"]) "index" "/projects/foo/files/1/download" []).
  - left. reflexivity.
  - reflexivity.
  - vm_compute. reflexivity.
  - reflexivity.
  - intros b Hb. vm_compute in Hb. discriminate Hb.
Defined.

(** The directory list of the planner, as names inside the archive: on
    an archive kind with an archive, the [MakeDir] changes are
    [MakeDir(base/s)] for [s] running through one list, which
    - holds exactly the directories on the parent chain of some entry
      (every ancestor directory of every entry, up to the archive root),
    - is in ascending bytewise order without repetition,
    - has [a] before [b] whenever the name [a] lies above the name [b], and
    - has the parent of each of its members before that member, unless the
      parent is the archive root.
    [PlanChanges] does return this once the walk is given enough
    iterations, for every archive none of whose entry names starts with a
    slash.  This is about the names; what they join to is another matter
    when a name climbs with [..]. *)
Theorem PlanChanges_creates_parents_first ord base sp files :
  archive_kind sp → zipData sp = Some files →
  (Forall (λ f, path.rooted (Name f) = false) files →
   ∃ fuel0, ∀ fuel, (fuel0 ≤ fuel)%nat →
     ∃ changes, outcome (PlanChanges ord fuel base sp) = Returns changes)
  ∧ ∀ fuel changes,
      outcome (PlanChanges ord fuel base sp) = Returns changes →
      ∃ dirSl,
        filter is_mkdir changes = map (λ s, fsMkdir (path.Join [base; s])) dirSl
        ∧ StronglySorted str_lt dirSl
        ∧ (∀ d, d ∈ dirSl ↔ ∃ f, f ∈ files ∧ on_chain (path.Dir (Name f)) d)
        ∧ (∀ a b, a ∈ dirSl → b ∈ dirSl → ancestor a b → before dirSl a b)
        ∧ (∀ b, b ∈ dirSl →
             path.Dir b = "."
             ∨ (ancestor (path.Dir b) b ∧ before dirSl (path.Dir b) b)).
Proof.
  intros Hk Hz. split.
  - intros Hall. destruct (new_dirs_terminates files ∅ Hall) as [fuel0 H0].
    exists fuel0. intros fuel Hle. destruct (H0 fuel Hle) as [dirs Hd].
    rewrite PlanChanges_archive, Hz by done. cbn [outcome]. rewrite Hd. eauto.
  - intros fuel changes. rewrite PlanChanges_archive, Hz by done. cbn [outcome].
    destruct (new_dirs fuel files ∅) as [dirs|] eqn:Hd; [|done].
    intros [= <-].
    destruct (sort_Strings_keys ord (dom dirs)) as [Hsorted Hmem].
    set (dirSl := sort_Strings (range_keys ord (dom dirs))) in *.
    assert (∀ d, d ∈ dirSl ↔ ∃ f, f ∈ files ∧ on_chain (path.Dir (Name f)) d)
      as Hchain.
    { intros d. rewrite Hmem, (new_dirs_spec _ _ _ _ Hd). set_solver. }
    exists dirSl. split_and!; [apply filter_mkdir_plan|done|done| |].
    + intros a b Ha Hb Hab. by apply sorted_before, ancestor_lt.
    + intros b Hb. apply Hchain in Hb as (f & Hf & Hon).
      pose proof (new_dirs_unrooted _ _ _ _ Hd) as Hun.
      rewrite Forall_forall in Hun.
      destruct (Dir_unrooted _ (Hun f Hf)) as (st & Hst & Hdir).
      destruct (on_chain_canon _ _ Hon st Hst Hdir) as (e & st' & Hst' & ->).
      rewrite Dir_render by done.
      destruct (decide (st' = [])) as [->|Hne]; [by left|right].
      pose proof (render_ancestor e st' Hne) as Hanc.
      split; [done|]. apply sorted_before; [done| | |by apply ancestor_lt].
      * apply Hchain. exists f. split; [done|].
        rewrite <-(Dir_render e st') by done. apply on_chain_parent; [done|].
        rewrite Dir_render by done.
        by destruct (render_facts st' (cstack_tail _ _ Hst') Hne) as (_&_&?&_).
      * apply Hchain. eauto.
Qed.

Lemma PlanChanges_creates_parents_first_witness :
  (∃ fuel0, ∀ fuel, (fuel0 ≤ fuel)%nat →
     ∃ changes,
       outcome (PlanChanges elements_order fuel "base"
                  {| spName := "foo"; spType := "curse"; Location := "";
                     Branch := ""; ownDirs := ["Foo"];
                     zipData := Some [file "Foo/a.lua"; file "Foo/sub/b.lua"] |})
       = Returns changes)
  ∧ ∃ dirSl,
      filter is_mkdir
        [fsRmdir "base/Foo"; fsMkdir "base/Foo"; fsMkdir "base/Foo/sub";
         fsWritefile "base/Foo/a.lua" (Some "data of Foo/a.lua");
         fsWritefile "base/Foo/sub/b.lua" (Some "data of Foo/sub/b.lua")]
      = map (λ s, fsMkdir (path.Join ["base"; s])) dirSl
      ∧ StronglySorted str_lt dirSl
      ∧ (∀ d, d ∈ dirSl ↔
              ∃ f, f ∈ [file "Foo/a.lua"; file "Foo/sub/b.lua"]
                   ∧ on_chain (path.Dir (Name f)) d)
      ∧ (∀ a b, a ∈ dirSl → b ∈ dirSl → ancestor a b → before dirSl a b)
      ∧ (∀ b, b ∈ dirSl →
           path.Dir b = "."
           ∨ (ancestor (path.Dir b) b ∧ before dirSl (path.Dir b) b)).
Proof.
  pose (H := PlanChanges_creates_parents_first elements_order "base"
               {| spName := "foo"; spType := "curse"; Location := "";
                  Branch := ""; ownDirs := ["Foo"];
                  zipData := Some [file "Foo/a.lua"; file "Foo/sub/b.lua"] |}
               [file "Foo/a.lua"; file "Foo/sub/b.lua"]
               (or_introl eq_refl) eq_refl).
  split.
  - apply (proj1 H). repeat constructor.
  - apply (proj2 H 8). vm_compute. reflexivity.
Defined.

(** ** The walk of [Download] from an entry at the archive root *)

(** [..], [../..], [../../..], ... *)
Lemma dots_cstack k : cstack (replicate (S k) "..").
Proof. constructor. apply Forall_replicate. done. Qed.

Lemma Clean_render st : cstack st → st ≠ [] → path.Clean (render st) = render st.
Proof.
  intros Hst Hne. destruct (render_facts st Hst Hne) as (Hr & Hnn & Hnd & Hrt & Hel).
  unfold path.Clean. destruct (decide (render st = "")); [done|].
  rewrite Hrt, Hel, foldl_replay by done. cbn zeta.
  rewrite app_nil_l_str, <-Hr. by destruct (decide (render st = "")).
Qed.

Lemma Join_two a b :
  a ≠ "" → b ≠ "" → path.Join [a; b] = path.Clean (a +:+ String "/" b).
Proof.
  intros Ha Hb. unfold path.Join. cbn [filter list_filter].
  destruct (decide (a ≠ "")) as [_|Hc]; [|by destruct Hc].
  destruct (decide (b ≠ "")) as [_|Hc]; [|by destruct Hc]. done.
Qed.

Lemma Join_dots k :
  path.Join [render (replicate (S k) ".."); ".."] = render (replicate (S (S k)) "..").
Proof.
  pose proof (dots_cstack k) as Hk. pose proof (dots_cstack (S k)) as HSk.
  destruct (render_facts _ Hk) as (Hr & Hnn & _); [done|].
  rewrite Join_two by done.
  assert (render (replicate (S k) "..") +:+ String "/" ".."
          = render (replicate (S (S k)) "..")) as ->.
  { rewrite Hr. cbn [render replicate].
    rewrite <-join_slash_snoc.
    - change (reverse (".." :: ".." :: replicate k ".."))
        with (reverse (replicate (S (S k)) "..")).
      change (reverse (".." :: replicate k ".."))
        with (reverse (replicate (S k) "..")).
      rewrite !reverse_replicate. by rewrite <-replicate_S_end.
    - rewrite reverse_cons. by destruct (reverse (replicate k "..")). }
  by apply Clean_render.
Qed.

Lemma top_dir_dots fuel k : top_dir fuel (render (replicate (S k) "..")) = None.
Proof.
  revert k. induction fuel as [|n IH]; intros k; [done|].
  cbn [top_dir]. rewrite Join_dots.
  destruct (render_facts _ (dots_cstack (S k))) as (_ & _ & Hnd & _); [done|].
  destruct (decide (render (replicate (S (S k)) "..") = ".")); [done|].
  apply IH.
Qed.

(** From the empty directory part the walk never reaches ["."]. *)
Lemma top_dir_root fuel : top_dir fuel "" = None.
Proof.
  destruct fuel as [|n]; [done|]. cbn [top_dir].
  change (path.Join [""; ".."]) with "..".
  destruct (decide (".." = ".")); [done|]. apply (top_dir_dots n 0).
Qed.

Lemma own_dirs_hangs fuel files dirs f :
  f ∈ files → Name f ≠ "." → top_dir fuel (path.Split (Name f)).1 = None →
  own_dirs fuel files dirs = None.
Proof.
  intros Hf Hn Ht. revert dirs.
  induction files as [|g files IH]; intros dirs; [by apply elem_of_nil in Hf|].
  cbn [own_dirs]. apply elem_of_cons in Hf as [<-|Hf].
  - destruct (decide (Name f = ".")); [done|]. by rewrite Ht.
  - destruct (decide (Name g = ".")); [by apply IH|].
    destruct (top_dir fuel (path.Split (Name g)).1); [by apply IH|done].
Qed.

(** C3 fails on the code: when the fetched archive has an entry directly at
    its root (a name with no directory part, other than [.]), the walk
    from that entry goes [..], [../..], ... and never ends, whatever number
    of iterations it is given: [Download] does not return. *)
Theorem Download_hangs_on_root_entry w ord fuel sp body doc files f :
  archive_kind sp →
  http_Get w (index_url (spType sp) (spName sp)) = Ok body →
  goquery_NewDocument w body = Ok doc →
  zipData (fetch_zip w sp doc).2 = Some files →
  f ∈ files → Name f ≠ "." → (path.Split (Name f)).1 = "" →
  outcome (Download w ord fuel sp) = Hangs.
Proof.
  intros Hk Hidx Hdoc Hz Hf Hn Hs. rewrite Download_archive by done.
  cbn zeta. rewrite Hidx, Hdoc. cbn [outcome]. rewrite Hz.
  rewrite (own_dirs_hangs fuel files ∅ f); [done..|].
  rewrite Hs. apply top_dir_root.
Qed.

Lemma Download_hangs_on_root_entry_witness :
  outcome (Download (serving [file "readme.txt"]) elements_order 1000
             (fresh "curse" []))
  = Hangs.
Proof.
  apply (Download_hangs_on_root_entry (serving [file "readme.txt"])
           elements_order 1000 (fresh "curse" [])
           "body of https://wow.curseforge.com/projects/foo/files"
           ["/projects/foo/files/1/download"] [file "readme.txt"]
           (file "readme.txt")).
  - left. reflexivity.
  - reflexivity.
  - reflexivity.
  - reflexivity.
  - apply list_elem_of_here.
  - discriminate.
  - reflexivity.
Defined.

(** An archive without entries: [Download] returns with no owned
    directory. *)
Lemma Download_empty_archive w ord fuel sp body doc :
  archive_kind sp →
  http_Get w (index_url (spType sp) (spName sp)) = Ok body →
  goquery_NewDocument w body = Ok doc →
  zipData (fetch_zip w sp doc).2 = Some [] →
  ∃ sp1, outcome (Download w ord fuel sp) = Returns sp1 ∧ ownDirs sp1 = [].
Proof.
  intros Hk Hidx Hdoc Hz. rewrite Download_archive by done.
  cbn zeta. rewrite Hidx, Hdoc. cbn [outcome]. rewrite Hz. cbn [own_dirs].
  eexists. split; [done|]. cbn [set_ownDirs ownDirs].
  apply Permutation_nil_r. by rewrite range_keys_perm, elements_empty.
Qed.

(** ** What [Download] records as owned *)

Lemma clean_step_empty rt st : path.clean_step rt st "" = st.
Proof. reflexivity. Qed.

Lemma Clean_trailing_slash s : s ≠ "" → path.Clean (s +:+ "/") = path.Clean s.
Proof.
  intros Hs. unfold path.Clean.
  destruct (decide (s +:+ "/" = "")) as [He|_]; [by destruct s|].
  destruct (decide (s = "")); [done|].
  rewrite rooted_app by done. change "/" with (String "/" "").
  rewrite elements_slash, foldl_app. cbn [path.elements foldl].
  by rewrite clean_step_empty.
Qed.

(** A directory written with a trailing slash joins to the same path. *)
Lemma Join_trailing_slash base d :
  d ≠ "" → path.Join [base; d +:+ "/"] = path.Join [base; d].
Proof.
  intros Hd. assert (d +:+ "/" ≠ "") as Hd' by (by destruct d).
  destruct (decide (base = "")) as [->|Hb].
  - unfold path.Join. cbn [filter list_filter].
    destruct (decide ("" ≠ "")) as [Hc|_]; [done|].
    destruct (decide (d +:+ "/" ≠ "")) as [_|Hc]; [|by destruct Hc].
    destruct (decide (d ≠ "")) as [_|Hc]; [|by destruct Hc].
    cbn [path.join_slash]. by apply Clean_trailing_slash.
  - rewrite !Join_two by done.
    rewrite <-(Clean_trailing_slash (base +:+ String "/" d)) by (by destruct base).
    f_equal. by rewrite app_assoc_str.
Qed.

Lemma top_dir_mono fuel fuel' dir d :
  top_dir fuel dir = Some d → (fuel ≤ fuel')%nat → top_dir fuel' dir = Some d.
Proof.
  revert fuel' dir. induction fuel as [|n IH]; intros fuel' dir; [done|].
  intros Ht Hle. destruct fuel' as [|m]; [lia|]. cbn in *.
  destruct (decide (path.Join [dir; ".."] = ".")); [done|].
  apply (IH m) in Ht; [done|lia].
Qed.

Lemma own_dirs_mono fuel fuel' files dirs dirs' :
  own_dirs fuel files dirs = Some dirs' → (fuel ≤ fuel')%nat →
  own_dirs fuel' files dirs = Some dirs'.
Proof.
  revert dirs. induction files as [|f files IH]; intros dirs; [done|].
  cbn. destruct (decide (Name f = ".")); [by apply IH|].
  destruct (top_dir fuel _) as [d|] eqn:Ht; [|done].
  intros Ho Hle. rewrite (top_dir_mono _ _ _ _ Ht Hle). by apply IH.
Qed.

Lemma normal_elements e : normal e → path.elements e = [e] ∧ path.rooted e = false.
Proof.
  intros (?&?&?&He). split; [by apply elements_single|by apply no_slash_unrooted].
Qed.

(** An entry one level below [top]: the walk stops at once and keeps the
    directory part as [path.Split] returned it, slash included. *)
Lemma top_dir_depth1 fuel top :
  normal top → top_dir (S fuel) (top +:+ "/") = Some (top +:+ "/").
Proof.
  intros Hn. destruct (normal_elements top Hn) as [Hel Hrt].
  destruct Hn as (Hne & Hnd & Hndd & Hns).
  cbn [top_dir]. rewrite Join_two by (done || by destruct top).
  assert (path.Clean ((top +:+ "/") +:+ String "/" "..") = ".") as ->; [|done].
  unfold path.Clean. destruct (decide (_ = "")) as [He|_]; [by destruct top|].
  rewrite app_assoc_str, rooted_app, Hrt by done. cbn zeta.
  change ("/" +:+ String "/" "..") with (String "/" (String "/" "..")).
  rewrite elements_app by done. cbn [path.elements Ascii.eqb Bool.eqb foldl].
  unfold path.clean_step. cbn [foldl].
  repeat (destruct (decide _); try done).
Qed.

(** An entry two levels below [top]: the walk climbs to [top]. *)
Lemma top_dir_depth2 fuel top sub :
  normal top → normal sub →
  top_dir (S (S fuel)) (top +:+ "/" +:+ sub +:+ "/") = Some top.
Proof.
  intros Hn Hs. destruct (normal_elements top Hn) as [Hel Hrt].
  destruct Hn as (Hne & Hnd & Hndd & Hns).
  destruct Hs as (Hne' & Hnd' & Hndd' & Hns').
  assert (path.Clean (top +:+ String "/" (sub +:+ String "/" (String "/" ".."))) = top)
    as Hup.
  { unfold path.Clean. destruct (decide (_ = "")) as [He|_]; [by destruct top|].
    rewrite rooted_app, Hrt by done. cbn zeta.
    rewrite !elements_app by done. cbn [path.elements Ascii.eqb Bool.eqb foldl].
    unfold path.clean_step. cbn [foldl].
    repeat (destruct (decide _); try done). }
  assert (path.Clean (top +:+ String "/" "..") = ".") as Hdot.
  { unfold path.Clean. destruct (decide (_ = "")) as [He|_]; [by destruct top|].
    rewrite rooted_app, Hrt by done. cbn zeta.
    rewrite !elements_app by done. cbn [path.elements Ascii.eqb Bool.eqb foldl].
    unfold path.clean_step. cbn [foldl].
    repeat (destruct (decide _); try done). }
  cbn [top_dir]. rewrite Join_two by (done || by destruct top).
  replace ((top +:+ "/" +:+ sub +:+ "/") +:+ String "/" "..")
    with (top +:+ String "/" (sub +:+ String "/" (String "/" "..")))
    by (by rewrite !app_assoc_str).
  rewrite Hup. destruct (decide (top = ".")); [done|].
  rewrite Join_two, Hdot by done. by destruct (decide ("." = ".")).
Qed.

Lemma own_dirs_grows fuel files dirs dirs' :
  own_dirs fuel files dirs = Some dirs' → dirs ⊆ dirs'.
Proof.
  revert dirs. induction files as [|f files IH]; intros dirs; cbn.
  - by intros [= <-].
  - destruct (decide (Name f = ".")); [by apply IH|].
    destruct (top_dir fuel _) as [d|]; [|done].
    intros Ho%IH. set_solver.
Qed.

Lemma own_dirs_elem fuel files dirs dirs' f :
  own_dirs fuel files dirs = Some dirs' → f ∈ files → Name f ≠ "." →
  ∃ d, top_dir fuel (path.Split (Name f)).1 = Some d ∧ d ∈ dirs'.
Proof.
  revert dirs. induction files as [|g files IH]; intros dirs Ho Hf Hn.
  { by apply elem_of_nil in Hf. }
  cbn in Ho. apply elem_of_cons in Hf as [<-|Hf].
  - destruct (decide (Name f = ".")); [done|].
    destruct (top_dir fuel _) as [d|]; [|done].
    exists d. split; [done|]. apply own_dirs_grows in Ho. set_solver.
  - destruct (decide (Name g = ".")); [by eapply IH|].
    destruct (top_dir fuel (path.Split (Name g)).1); [by eapply IH|done].
Qed.

(** The set never holds the archive root ["."]. *)
Lemma Split_dir_shape p :
  (path.Split p).1 = "" ∨ ends_in_slash (path.Split p).1 = true.
Proof.
  induction p as [|c p IH]; [by left|]. cbn [path.Split].
  destruct (path.Split p) as [d f]. cbn [fst] in IH.
  destruct (decide (d = "")) as [->|Hd].
  - destruct (Ascii.eqb c "/") eqn:Hc; [by right|by left].
  - right. destruct IH as [|IH]; [done|]. cbn [fst]. by destruct d.
Qed.



Lemma Split_dir_file d x :
  no_slash x = true → (path.Split (d +:+ "/" +:+ x)).1 = d +:+ "/".
Proof.
  intros Hx. change ("/" +:+ x) with (String "/" x). by rewrite Split_app.
Qed.

Lemma elem_of_range_keys ord (s : gset string) d : d ∈ range_keys ord s ↔ d ∈ s.
Proof. by rewrite range_keys_perm, elem_of_elements. Qed.

Lemma under_top_not_dot top r :
  no_slash top = true → top +:+ String "/" r ≠ ".".
Proof.
  intros Hs Heq. apply (f_equal path.elements) in Heq.
  rewrite elements_app in Heq by done.
  pose proof (elements_nonempty r). cbn in Heq. by destruct (path.elements r).
Qed.

(** C2 fails on the code: when the archive has an entry directly inside a
    top-level directory ([top/x]) and one further down ([top/sub/y]), the
    set [Download] computes holds both ["top/"] and ["top"]: two different
    keys, so the map keeps both, and they name the same directory. *)
Theorem Download_owns_top_directory_twice
    w ord fuel sp sp1 body doc files f g top sub x y :
  archive_kind sp →
  http_Get w (index_url (spType sp) (spName sp)) = Ok body →
  goquery_NewDocument w body = Ok doc →
  zipData (fetch_zip w sp doc).2 = Some files →
  normal top → normal sub → no_slash x = true → no_slash y = true →
  f ∈ files → Name f = top +:+ "/" +:+ x →
  g ∈ files → Name g = (top +:+ "/" +:+ sub) +:+ "/" +:+ y →
  outcome (Download w ord fuel sp) = Returns sp1 →
  top +:+ "/" ∈ ownDirs sp1 ∧ top ∈ ownDirs sp1 ∧ top +:+ "/" ≠ top
  ∧ ∀ base, path.Join [base; top +:+ "/"] = path.Join [base; top].
Proof.
  intros Hk Hidx Hdoc Hz Htop Hsub Hx Hy Hf Hfn Hg Hgn.
  rewrite Download_archive by done. cbn zeta. rewrite Hidx, Hdoc.
  cbn [outcome]. rewrite Hz.
  destruct (own_dirs fuel files ∅) as [dirs|] eqn:Ho; [|done].
  intros [= <-]. cbn [ownDirs set_ownDirs]. rewrite !elem_of_range_keys.
  assert (top ≠ "") as Hne by (by destruct Htop).
  split_and!.
  - destruct (own_dirs_elem _ _ _ _ f Ho Hf) as (d & Ht & Hd).
    { rewrite Hfn. apply (under_top_not_dot top x). by destruct Htop as (?&?&?&?). }
    rewrite Hfn, Split_dir_file in Ht by done.
    apply (top_dir_mono _ (S fuel)) in Ht; [|lia].
    rewrite top_dir_depth1 in Ht by done. by injection Ht as <-.
  - destruct (own_dirs_elem _ _ _ _ g Ho Hg) as (d & Ht & Hd).
    { rewrite Hgn, app_assoc_str.
      apply (under_top_not_dot top (sub +:+ String "/" y)).
      by destruct Htop as (?&?&?&?). }
    rewrite Hgn, Split_dir_file in Ht by done.
    apply (top_dir_mono _ (S (S fuel))) in Ht; [|lia].
    replace ((top +:+ "/" +:+ sub) +:+ "/") with (top +:+ "/" +:+ sub +:+ "/")
      in Ht by (by rewrite (app_assoc_str top)).
    rewrite top_dir_depth2 in Ht by done. by injection Ht as <-.
  - intros Heq. rewrite <-(app_nil_r_str top) in Heq at 2.
    by apply (inj (String.app top)) in Heq.
  - intros base. by apply Join_trailing_slash.
Qed.

Lemma Download_owns_top_directory_twice_witness :
  "Foo/" ∈ ["Foo/"; "Foo"] ∧ "Foo" ∈ ["Foo/"; "Foo"] ∧ "Foo/" ≠ "Foo"
  ∧ ∀ base, path.Join [base; "Foo/"] = path.Join [base; "Foo"].
Proof.
  apply (Download_owns_top_directory_twice
           (serving [file "Foo/a.lua"; file "Foo/sub/b.lua"]) elements_order 4
           (fresh "curse" [])
           {| spName := "foo"; spType := "curse"; Location := "/pkgs/foo";
              Branch := "";
              zipData := Some [file "Foo/a.lua"; file "Foo/sub/b.lua"];
              ownDirs := ["Foo/"; "Foo"] |}
           "body of https://wow.curseforge.com/projects/foo/files"
           ["/projects/foo/files/1/download"]
           [file "Foo/a.lua"; file "Foo/sub/b.lua"]
           (file "Foo/a.lua") (file "Foo/sub/b.lua") "Foo" "sub" "a.lua" "b.lua").
  - left. reflexivity.
  - reflexivity.
  - reflexivity.
  - reflexivity.
  - repeat split; discriminate.
  - repeat split; discriminate.
  - reflexivity.
  - reflexivity.
  - apply list_elem_of_here.
  - reflexivity.
  - apply list_elem_of_further, list_elem_of_here.
  - reflexivity.
  - vm_compute. reflexivity.
Defined.

(** ** The archive with [Foo/a.lua] and [Foo/sub/b.lua] *)

Lemma sort_Strings_unique l l' :
  l ≡ₚ l' → StronglySorted String.le l' → sort_Strings l = l'.
Proof.
  intros Hp Hs. apply (StronglySorted_unique String.le); [|done|].
  - apply (StronglySorted_merge_sort String.le).
  - unfold sort_Strings. by rewrite merge_sort_Permutation.
Qed.

Lemma map_two_same {A B} (f : A → B) l a b r :
  l ≡ₚ [a; b] → f a = r → f b = r → map f l = [r; r].
Proof.
  intros Hp Ha Hb. symmetry in Hp.
  apply Permutation_length_2_inv in Hp as [->| ->]; cbn; congruence.
Qed.

(** Called with [ownDirs = ["Foo"]] already in place, the planner gives the
    five changes. *)
Lemma PlanChanges_Foo_directly ord fuel base sp da db :
  archive_kind sp → ownDirs sp = ["Foo"] →
  zipData sp = Some [ {| Name := "Foo/a.lua"; ModeDir := false; Data := da |};
                      {| Name := "Foo/sub/b.lua"; ModeDir := false; Data := db |} ] →
  outcome (PlanChanges ord (3 + fuel) base sp) =
    Returns [fsRmdir (path.Join [base; "Foo"]);
             fsMkdir (path.Join [base; "Foo"]);
             fsMkdir (path.Join [base; "Foo/sub"]);
             fsWritefile (path.Join [base; "Foo/a.lua"]) da;
             fsWritefile (path.Join [base; "Foo/sub/b.lua"]) db].
Proof.
  intros Hk Hown Hz. rewrite PlanChanges_archive, Hz by done. cbn [outcome].
  rewrite (new_dirs_mono 3 _ _ _ (<["Foo/sub" := true]> (<["Foo" := true]> ∅)));
    [|vm_compute; reflexivity|lia].
  rewrite (sort_Strings_unique _ ["Foo"; "Foo/sub"]).
  - by rewrite Hown.
  - rewrite range_keys_perm, !dom_insert_L, dom_empty_L, union_empty_r_L.
    rewrite elements_union_singleton by set_solver.
    rewrite elements_singleton. apply perm_swap.
  - repeat constructor.
Qed.

(** C5 fails on the code, by the defect of C2: in a run that fetches this
    archive, [Download] sets [ownDirs] to ["Foo/"] and ["Foo"] (in some
    order), whatever it held before, and [PlanChanges] then emits
    [RemoveTree(base/Foo)] twice: six changes, not five. *)
Theorem run_removes_Foo_twice w ord ord' fuel fuel' base sp body doc da db :
  archive_kind sp → ownDirs sp = ["Foo"] →
  http_Get w (index_url (spType sp) (spName sp)) = Ok body →
  goquery_NewDocument w body = Ok doc →
  zipData (fetch_zip w sp doc).2
  = Some [ {| Name := "Foo/a.lua"; ModeDir := false; Data := da |};
           {| Name := "Foo/sub/b.lua"; ModeDir := false; Data := db |} ] →
  ∃ sp1,
    outcome (Download w ord (2 + fuel) sp) = Returns sp1
    ∧ ownDirs sp1 ≡ₚ ["Foo/"; "Foo"]
    ∧ outcome (PlanChanges ord' (3 + fuel') base sp1) =
        Returns [fsRmdir (path.Join [base; "Foo"]);
                 fsRmdir (path.Join [base; "Foo"]);
                 fsMkdir (path.Join [base; "Foo"]);
                 fsMkdir (path.Join [base; "Foo/sub"]);
                 fsWritefile (path.Join [base; "Foo/a.lua"]) da;
                 fsWritefile (path.Join [base; "Foo/sub/b.lua"]) db].
Proof.
  intros Hk Hown Hidx Hdoc Hz. rewrite Download_archive by done.
  cbn zeta. rewrite Hidx, Hdoc. cbn [outcome]. rewrite Hz.
  rewrite (own_dirs_mono 2 _ _ _ ({["Foo"]} ∪ ({["Foo/"]} ∪ ∅)));
    [|vm_compute; reflexivity|lia].
  eexists. split; [done|].
  assert (range_keys ord ({["Foo"]} ∪ ({["Foo/"]} ∪ ∅)) ≡ₚ ["Foo/"; "Foo"]) as Hp.
  { rewrite range_keys_perm, union_empty_r_L.
    rewrite elements_union_singleton by set_solver.
    rewrite elements_singleton. apply perm_swap. }
  split; [done|].
  rewrite PlanChanges_archive
    by (unfold archive_kind; cbn [spType set_ownDirs]; by rewrite fetch_zip_spType).
  cbn [zipData set_ownDirs ownDirs]. rewrite Hz. cbn [outcome].
  rewrite (new_dirs_mono 3 _ _ _ (<["Foo/sub" := true]> (<["Foo" := true]> ∅)));
    [|vm_compute; reflexivity|lia].
  rewrite (sort_Strings_unique _ ["Foo"; "Foo/sub"]).
  - unfold plan_archive.
    rewrite (map_two_same _ _ "Foo/" "Foo" (fsRmdir (path.Join [base; "Foo"])) Hp);
      [done| |done].
    f_equal. by apply (Join_trailing_slash base "Foo").
  - rewrite range_keys_perm, !dom_insert_L, dom_empty_L, union_empty_r_L.
    rewrite elements_union_singleton by set_solver.
    rewrite elements_singleton. apply perm_swap.
  - repeat constructor.
Qed.

Lemma run_removes_Foo_twice_witness :
  ∃ sp1,
    outcome (Download (serving [file "Foo/a.lua"; file "Foo/sub/b.lua"])
               elements_order 2 (fresh "curse" ["Foo"])) = Returns sp1
    ∧ ownDirs sp1 ≡ₚ ["Foo/"; "Foo"]
    ∧ outcome (PlanChanges elements_order 3 "base" sp1) =
        Returns [fsRmdir "base/Foo"; fsRmdir "base/Foo";
                 fsMkdir "base/Foo"; fsMkdir "base/Foo/sub";
                 fsWritefile "base/Foo/a.lua" (Some "data of Foo/a.lua");
                 fsWritefile "base/Foo/sub/b.lua" (Some "data of Foo/sub/b.lua")].
Proof.
  apply (run_removes_Foo_twice
           (serving [file "Foo/a.lua"; file "Foo/sub/b.lua"])
           elements_order elements_order 0 0 "base" (fresh "curse" ["Foo"])
           "body of https://wow.curseforge.com/projects/foo/files"
           ["/projects/foo/files/1/download"]
           (Some "data of Foo/a.lua") (Some "data of Foo/sub/b.lua")).
  - left. reflexivity.
  - reflexivity.
  - reflexivity.
  - reflexivity.
  - reflexivity.
Defined.

(** ** Elements and strings, both ways *)

Lemma join_slash_elements s : path.join_slash (path.elements s) = s.
Proof.
  induction s as [|c s IH]; [done|]. cbn [path.elements].
  pose proof (elements_nonempty s) as Hne.
  destruct (Ascii.eqb c "/") eqn:Hc.
  - apply Ascii.eqb_eq in Hc as ->.
    destruct (path.elements s) as [|x xs]; [done|].
    rewrite join_slash_cons, IH. done.
  - destruct (path.elements s) as [|x xs]; [done|].
    destruct xs as [|y ys].
    + cbn in *. by rewrite IH.
    + rewrite join_slash_cons in *. rewrite app_cons. by rewrite IH.
Qed.

Lemma elements_inj s t : path.elements s = path.elements t → s = t.
Proof.
  intros He. by rewrite <-(join_slash_elements s), He, join_slash_elements.
Qed.

Lemma join_slash_app l1 l2 :
  l1 ≠ [] → l2 ≠ [] →
  path.join_slash (l1 ++ l2) = path.join_slash l1 +:+ String "/" (path.join_slash l2).
Proof.
  intros H1 H2. induction l1 as [|x l1 IH]; [done|].
  destruct l1 as [|y l1].
  - destruct l2 as [|z l2]; [done|]. reflexivity.
  - change ((x :: y :: l1) ++ l2)%list with (x :: (y :: l1) ++ l2)%list.
    change ((y :: l1) ++ l2)%list with (y :: (l1 ++ l2))%list.
    rewrite join_slash_cons. change (y :: (l1 ++ l2))%list with ((y :: l1) ++ l2)%list.
    rewrite IH by done. rewrite join_slash_cons. by rewrite app_assoc_str.
Qed.

Lemma reverse_nil_inv {A} (l : list A) : reverse l = [] → l = [].
Proof. intros H. by rewrite <-(reverse_involutive l), H. Qed.

(** [Clean] on a path that is not rooted, as the buffer it leaves. *)
Lemma Clean_unrooted_eq p :
  p ≠ "" → path.rooted p = false →
  path.Clean p = render (foldl (path.clean_step false) [] (path.elements p)).
Proof.
  intros Hne Hp. unfold path.Clean. destruct (decide (p = "")); [done|].
  rewrite Hp. cbn zeta.
  set (st := foldl (path.clean_step false) [] (path.elements p)).
  assert (cstack st) as Hst.
  { apply foldl_cstack; [apply elements_no_slash|constructor]. }
  rewrite app_nil_l_str.
  destruct (decide (st = [])) as [->|Hst']; [done|].
  destruct (render_facts st Hst Hst') as (Hr & Hnn & _).
  rewrite <-Hr. by destruct (decide (render st = "")).
Qed.

Lemma render_inj st st' : cstack st → cstack st' → render st = render st' → st = st'.
Proof.
  intros Hs Hs' Heq.
  destruct (decide (st = [])) as [->|Hne], (decide (st' = [])) as [->|Hne']; [done| | |].
  - destruct (render_facts st' Hs' Hne') as (_ & _ & Hnd & _). by rewrite <-Heq in Hnd.
  - destruct (render_facts st Hs Hne) as (_ & _ & Hnd & _). by rewrite Heq in Hnd.
  - destruct (render_facts st Hs Hne) as (_ & _ & _ & _ & Hel).
    destruct (render_facts st' Hs' Hne') as (_ & _ & _ & _ & Hel').
    rewrite Heq, Hel' in Hel. by apply (inj reverse).
Qed.

Lemma normal_cstack st : Forall normal st → cstack st.
Proof. induction 1; by constructor. Qed.

Lemma normal_not_dots e : normal e → e ≠ "..".
Proof. by intros (_&_&?&_). Qed.

(** A [..] in the buffer of a path that is not rooted stays there. *)
Lemma clean_step_keeps_dots st e :
  ".." ∈ st → ".." ∈ path.clean_step false st e.
Proof.
  intros Hin. unfold path.clean_step.
  destruct (decide (e = "")); [done|]. destruct (decide (e = ".")); [done|].
  destruct (decide (e = "..")) as [->|].
  - destruct st as [|top rest]; [by apply elem_of_nil in Hin|].
    destruct (decide (top = "..")); [by apply list_elem_of_further|].
    apply elem_of_cons in Hin as [?|?]; done.
  - by apply list_elem_of_further.
Qed.

Lemma foldl_keeps_dots l st :
  ".." ∈ st → ".." ∈ foldl (path.clean_step false) st l.
Proof.
  revert st. induction l as [|e l IH]; intros st Hin; [done|].
  cbn [foldl]. by apply IH, clean_step_keeps_dots.
Qed.

(** A path whose cleaning never climbs above its start cleans the same way
    on top of any buffer. *)
Lemma foldl_lift rt l acc sb :
  ".." ∉ foldl (path.clean_step false) acc l →
  foldl (path.clean_step rt) (acc ++ sb)%list l
  = (foldl (path.clean_step false) acc l ++ sb)%list.
Proof.
  revert acc. induction l as [|e l IH]; intros acc Hnd; [done|].
  cbn [foldl] in *.
  assert (path.clean_step rt (acc ++ sb)%list e
          = (path.clean_step false acc e ++ sb)%list) as ->; [|by apply IH].
  assert (".." ∉ path.clean_step false acc e) as Hstep.
  { intros Hin. apply Hnd. by apply foldl_keeps_dots. }
  unfold path.clean_step in *.
  destruct (decide (e = "")); [done|]. destruct (decide (e = ".")); [done|].
  destruct (decide (e = "..")) as [->|]; [|done].
  destruct acc as [|top rest].
  - exfalso. apply Hstep. apply list_elem_of_here.
  - cbn. destruct (decide (top = "..")) as [->|]; [|done].
    exfalso. apply Hstep. apply list_elem_of_here.
Qed.

Lemma normal_no_dots st : Forall normal st → ".." ∉ st.
Proof.
  intros Hall Hin. rewrite Forall_forall in Hall.
  by apply Hall, normal_not_dots in Hin.
Qed.

(** ** [path.Join] onto a directory of real elements *)

Lemma render_cons_normal st : st ≠ [] → render st = path.join_slash (reverse st).
Proof. by destruct st. Qed.

Lemma app_eq_empty s t : s +:+ t = "" → s = "" ∧ t = "".
Proof.
  destruct s as [|c s].
  - rewrite app_nil_l_str. by intros ->.
  - rewrite app_cons. done.
Qed.

Lemma Join_under base d st :
  d ≠ "" → path.rooted d = false →
  foldl (path.clean_step false) [] (path.elements d) = st →
  Forall normal st → st ≠ [] →
  path.Join [base; d] = join_prefix base +:+ render st.
Proof.
  intros Hd Hrt Hst Hall Hne. unfold join_prefix.
  destruct (render_facts st (normal_cstack _ Hall) Hne) as (Hr & Hnn & _).
  destruct (decide (base = "")) as [->|Hb].
  - unfold path.Join. cbn [filter list_filter].
    destruct (decide ("" ≠ "")) as [Hc|_]; [done|].
    destruct (decide (d ≠ "")) as [_|Hc]; [|by destruct Hc].
    cbn [path.join_slash]. by rewrite Clean_unrooted_eq, Hst.
  - rewrite Join_two by done. unfold path.Clean.
    destruct (decide (base +:+ String "/" d = "")) as [He|_]; [by destruct base|].
    rewrite rooted_app by done. cbn zeta.
    rewrite elements_slash, foldl_app.
    pose proof (foldl_lift (path.rooted base) (path.elements d) []
                  (foldl (path.clean_step (path.rooted base)) []
                     (path.elements base))) as Hl.
    rewrite Hst in Hl. cbn [app] in Hl. rewrite Hl by (by apply normal_no_dots).
    rewrite reverse_app, Hr.
    assert (reverse st ≠ []) as Hrv by (intros ?%reverse_nil_inv; done).
    destruct (foldl (path.clean_step (path.rooted base)) [] (path.elements base))
      as [|b sb'].
    + rewrite reverse_nil. cbn [app]. rewrite app_nil_r_str.
      destruct (decide (_ = "")) as [He|_]; [|done].
      apply app_eq_empty in He as [_ He]. by rewrite <-Hr in He.
    + assert (reverse (b :: sb') ≠ []) as Hrb by (intros ?%reverse_nil_inv; done).
      rewrite join_slash_app by done.
      destruct (decide (_ = "")) as [He|_].
      { by apply app_eq_empty in He as [_ [_ He]%app_eq_empty]. }
      rewrite !app_assoc_str. done.
Qed.

(** ** The walk of [Download], in full *)

Lemma Join_dotdot d :
  d ≠ "" → path.rooted d = false →
  path.Join [d; ".."]
  = render (path.clean_step false
              (foldl (path.clean_step false) [] (path.elements d)) "..").
Proof.
  intros Hd Hrt. rewrite Join_two by done.
  rewrite Clean_unrooted_eq by (by destruct d || by rewrite rooted_app).
  by rewrite elements_slash, foldl_app.
Qed.

Lemma elements_render st :
  cstack st → st ≠ [] →
  foldl (path.clean_step false) [] (path.elements (render st)) = st.
Proof.
  intros Hst Hne. destruct (render_facts st Hst Hne) as (_&_&_&_&->).
  by apply foldl_replay.
Qed.

Lemma cstack_cases st : cstack st → Forall normal st ∨ ".." ∈ st.
Proof.
  induction 1 as [|st Hd|e st He _ IH].
  - left. constructor.
  - right. apply list_elem_of_here.
  - destruct IH as [IH|IH]; [left; by constructor|right; by apply list_elem_of_further].
Qed.

Lemma pop_normal e st :
  normal e → path.clean_step false (e :: st) ".." = st.
Proof.
  intros He. unfold path.clean_step. cbn.
  destruct (decide (e = "..")) as [->|]; [|done]. by apply normal_not_dots in He.
Qed.

(** From a canonical path of real elements the walk ends at the first
    element. *)
Lemma top_dir_canonical st n :
  Forall normal st → st ≠ [] →
  ∃ e, last st = Some e ∧ top_dir (length st + n) (render st) = Some e.
Proof.
  intros Hall Hne. induction Hall as [|e st He Hall IH]; [done|].
  pose proof (normal_cstack _ (Forall_cons_2 _ _ _ He Hall)) as Hcs.
  destruct (render_facts _ Hcs Hne) as (_ & Hnn & _ & Hrt & _).
  cbn [length Nat.add top_dir].
  rewrite Join_dotdot, elements_render, pop_normal by done.
  destruct st as [|e' st'].
  - exists e. split; [done|]. by destruct (decide (render [] = ".")).
  - destruct IH as (b & Hlast & Ht); [done|].
    exists b. split; [done|].
    destruct (render_facts (e' :: st') (normal_cstack _ Hall)) as (_&_&Hnd&_); [done|].
    by destruct (decide (render (e' :: st') = ".")).
Qed.

(** From a canonical path that starts above its origin the walk never
    ends. *)
Lemma top_dir_climbing fuel st :
  cstack st → ".." ∈ st → top_dir fuel (render st) = None.
Proof.
  revert st. induction fuel as [|n IH]; intros st Hcs Hin; [done|].
  assert (st ≠ []) as Hne by (by destruct st; [apply elem_of_nil in Hin|]).
  destruct (render_facts _ Hcs Hne) as (_ & Hnn & _ & Hrt & _).
  cbn [top_dir]. rewrite Join_dotdot, elements_render by done.
  set (st' := path.clean_step false st "..").
  assert (cstack st') as Hcs' by (by apply clean_step_cstack).
  assert (".." ∈ st') as Hin' by (by apply clean_step_keeps_dots).
  assert (st' ≠ []) as Hne' by (by destruct st'; [apply elem_of_nil in Hin'|]).
  destruct (render_facts _ Hcs' Hne') as (_ & _ & Hnd & _).
  destruct (decide (render st' = ".")); [done|]. by apply IH.
Qed.

Lemma top_dir_rooted fuel d : path.rooted d = true → top_dir fuel d = None.
Proof.
  revert d. induction fuel as [|n IH]; intros d Hrt; [done|].
  assert (d ≠ "") as Hd by (by destruct d).
  cbn [top_dir]. rewrite Join_two by done.
  assert (path.rooted (path.Clean (d +:+ String "/" "..")) = true) as Hr.
  { apply Clean_rooted. by rewrite rooted_app. }
  destruct (decide (path.Clean (d +:+ String "/" "..") = ".")) as [He|_].
  { by rewrite He in Hr. }
  by apply IH.
Qed.

(** The walk from the directory part [d] of an entry, by the buffer [d]
    cleans to. *)
Lemma top_dir_raw d st :
  d ≠ "" → path.rooted d = false →
  foldl (path.clean_step false) [] (path.elements d) = st →
  (Forall normal st → st ≠ [] →
   ∃ r t, (∀ fuel, (length st ≤ fuel)%nat → top_dir fuel d = Some r)
          ∧ last st = Some t ∧ normal t
          ∧ r ≠ "" ∧ path.rooted r = false
          ∧ foldl (path.clean_step false) [] (path.elements r) = [t])
  ∧ (st = [] ∨ ".." ∈ st → ∀ fuel, top_dir fuel d = None).
Proof.
  intros Hd Hrt Hst.
  assert (cstack st) as Hcs.
  { rewrite <-Hst. apply foldl_cstack; [apply elements_no_slash|constructor]. }
  split.
  - intros Hall Hne. destruct st as [|e st']; [done|].
    apply Forall_cons in Hall as [He Hall].
    destruct st' as [|e' st''].
    + exists d, e. split_and!; [|done..].
      intros [|fuel] Hle; [cbn in Hle; lia|]. cbn [top_dir].
      rewrite Join_dotdot, Hst, pop_normal by done.
      by destruct (decide (render [] = ".")).
    + destruct (top_dir_canonical (e' :: st'') 0 Hall) as (b & Hlast & Ht); [done|].
      rewrite Nat.add_0_r in Ht.
      assert (normal b) as Hb.
      { rewrite Forall_forall in Hall. apply Hall. by apply last_Some_elem_of. }
      exists b, b. split_and!; [|done|done|by destruct Hb| |].
      * intros [|fuel] Hle; [cbn in Hle; lia|]. cbn [top_dir].
        rewrite Join_dotdot, Hst, pop_normal by done.
        destruct (render_facts (e' :: st'') (normal_cstack _ Hall)) as (_&_&Hnd&_);
          [done|].
        destruct (decide (render (e' :: st'') = ".")); [done|].
        apply (top_dir_mono _ _ _ _ Ht). cbn in *. lia.
      * apply no_slash_unrooted. by destruct Hb as (_&_&_&?).
      * apply (elements_render [b]); [by apply normal_cstack; constructor|done].
  - intros Hbad fuel. destruct fuel as [|fuel]; [done|]. cbn [top_dir].
    rewrite Join_dotdot, Hst by done.
    set (st' := path.clean_step false st "..").
    assert (cstack st') as Hcs' by (by apply clean_step_cstack).
    assert (".." ∈ st') as Hin'.
    { destruct Hbad as [->|Hin]; [apply list_elem_of_here|].
      by apply clean_step_keeps_dots. }
    assert (st' ≠ []) as Hne' by (by destruct st'; [apply elem_of_nil in Hin'|]).
    destruct (render_facts _ Hcs' Hne') as (_ & _ & Hnd & _).
    destruct (decide (render st' = ".")); [done|]. by apply top_dir_climbing.
Qed.

(** ** Entries [Download] can place *)

Lemma well_placed_iff n :
  well_placed n ↔
  (path.Split n).1 ≠ "" ∧ path.rooted (path.Split n).1 = false
  ∧ Forall normal (foldl (path.clean_step false) []
                     (path.elements (path.Split n).1))
  ∧ foldl (path.clean_step false) [] (path.elements (path.Split n).1) ≠ [].
Proof.
  unfold well_placed, path.Dir. set (d := (path.Split n).1).
  destruct (decide (d = "")) as [->|Hd].
  { split; [|by intros (?&_)]. intros Hall. cbn in Hall.
    by apply Forall_cons in Hall as [(_&?&_) _]. }
  destruct (path.rooted d) eqn:Hrt.
  { split; [|by intros (_&?&_)]. intros Hall. exfalso.
    pose proof (Clean_rooted d Hrt) as Hr.
    destruct (path.Clean d) as [|c s]; [done|]. cbn in Hr.
    apply Ascii.eqb_eq in Hr as ->. cbn in Hall.
    by apply Forall_cons in Hall as [(?&_) _]. }
  rewrite Clean_unrooted_eq by done.
  set (st := foldl (path.clean_step false) [] (path.elements d)).
  assert (cstack st) as Hcs.
  { apply foldl_cstack; [apply elements_no_slash|constructor]. }
  destruct (decide (st = [])) as [Hst|Hne].
  { rewrite Hst. split; [|by intros (_&_&_&?)]. intros Hall. cbn in Hall.
    by apply Forall_cons in Hall as [(_&?&_) _]. }
  destruct (render_facts st Hcs Hne) as (_&_&_&_&->).
  rewrite Forall_reverse. naive_solver.
Qed.

Lemma top_element_placed n :
  well_placed n →
  top_element n
  = last (foldl (path.clean_step false) [] (path.elements (path.Split n).1)).
Proof.
  intros Hwp. apply well_placed_iff in Hwp as (Hd & Hrt & Hall & Hne).
  unfold top_element, path.Dir. rewrite Clean_unrooted_eq by done.
  destruct (render_facts _ (normal_cstack _ Hall) Hne) as (_&_&_&_&->).
  apply head_reverse.
Qed.

(** Where the walk of [Download] ends for an entry it can place. *)
Lemma top_dir_placed n :
  well_placed n →
  ∃ r t fuel0,
    (∀ fuel, (fuel0 ≤ fuel)%nat → top_dir fuel (path.Split n).1 = Some r)
    ∧ top_element n = Some t ∧ normal t ∧ path.Clean r = t
    ∧ ∀ base, path.Join [base; r] = join_prefix base +:+ t.
Proof.
  intros Hwp. pose proof (top_element_placed n Hwp) as Htop.
  apply well_placed_iff in Hwp as (Hd & Hrt & Hall & Hne).
  destruct (top_dir_raw _ _ Hd Hrt eq_refl) as [Hok _].
  destruct (Hok Hall Hne) as (r & t & Hfuel & Hlast & Ht & Hr & Hrr & Hst).
  exists r, t. eexists. split_and!; [exact Hfuel|by rewrite Htop|done| |].
  - by rewrite Clean_unrooted_eq, Hst.
  - intros base.
    apply (Join_under base r [t]); [done..|by constructor|done].
Qed.

(** For any other entry the walk never ends. *)
Lemma top_dir_misplaced n fuel :
  ¬ well_placed n → top_dir fuel (path.Split n).1 = None.
Proof.
  intros Hwp. rewrite well_placed_iff in Hwp.
  destruct (decide ((path.Split n).1 = "")) as [->|Hd]; [apply top_dir_root|].
  destruct (path.rooted (path.Split n).1) eqn:Hrt; [by apply top_dir_rooted|].
  destruct (top_dir_raw _ _ Hd Hrt eq_refl) as [_ Hbad]. apply Hbad.
  set (st := foldl (path.clean_step false) [] (path.elements (path.Split n).1)) in *.
  assert (cstack st) as Hcs.
  { apply foldl_cstack; [apply elements_no_slash|constructor]. }
  destruct (decide (st = [])) as [|Hne]; [by left|right].
  destruct (cstack_cases st Hcs) as [Hall|]; [|done].
  destruct Hwp. done.
Qed.

Lemma top_dir_some_placed n fuel d :
  top_dir fuel (path.Split n).1 = Some d → well_placed n.
Proof.
  intros Ht. destruct (decide (well_placed n)) as [|Hn]; [done|].
  by rewrite top_dir_misplaced in Ht.
Qed.

Lemma own_dirs_returns files dirs :
  Forall (λ f, Name_is_dot_or_placed (Name f)) files →
  ∃ fuel0, ∀ fuel, (fuel0 ≤ fuel)%nat → is_Some (own_dirs fuel files dirs).
Proof.
  revert dirs. induction files as [|f files IH]; intros dirs Hall.
  { exists 0. by eexists. }
  apply Forall_cons in Hall as [Hf Hall].
  destruct (decide (Name f = ".")) as [Hdot|Hdot].
  - destruct (IH dirs Hall) as [fuel0 H0]. exists fuel0. intros fuel Hle.
    cbn [own_dirs]. destruct (decide (Name f = ".")); [by apply H0|done].
  - destruct Hf as [|Hwp]; [done|].
    destruct (top_dir_placed _ Hwp) as (r & t & fuel1 & Hr & _).
    destruct (IH ({[r]} ∪ dirs) Hall) as [fuel0 H0].
    exists (fuel0 `max` fuel1). intros fuel Hle. cbn [own_dirs].
    destruct (decide (Name f = ".")); [done|].
    rewrite Hr by lia. apply H0. lia.
Qed.

Lemma own_dirs_placed fuel files dirs dirs' :
  own_dirs fuel files dirs = Some dirs' →
  Forall (λ f, Name_is_dot_or_placed (Name f)) files.
Proof.
  revert dirs. induction files as [|f files IH]; intros dirs; [constructor|].
  cbn [own_dirs]. destruct (decide (Name f = ".")).
  - intros Ho. constructor; [by left|by eapply IH].
  - destruct (top_dir fuel _) as [d|] eqn:Ht; [|done].
    intros Ho. constructor; [right; by eapply top_dir_some_placed|by eapply IH].
Qed.

Lemma own_dirs_spec fuel files dirs dirs' :
  own_dirs fuel files dirs = Some dirs' →
  ∀ d, d ∈ dirs' ↔
       d ∈ dirs ∨ ∃ f, f ∈ files ∧ Name f ≠ "."
                      ∧ top_dir fuel (path.Split (Name f)).1 = Some d.
Proof.
  revert dirs. induction files as [|f files IH]; intros dirs; cbn [own_dirs].
  - intros [= <-] d. set_solver.
  - destruct (decide (Name f = ".")) as [Hdot|Hdot].
    + intros Ho d. rewrite (IH _ Ho). set_solver.
    + destruct (top_dir fuel _) as [r|] eqn:Ht; [|done].
      intros Ho d. rewrite (IH _ Ho). split.
      * intros [[->%elem_of_singleton|?]%elem_of_union|(g&?&?&?)].
        -- right. exists f. split_and!; [apply list_elem_of_here|done..].
        -- by left.
        -- right. exists g. split_and!; [by apply list_elem_of_further|done..].
      * intros [?|(g&[->|?]%elem_of_cons&?&Hg)].
        -- left. set_solver.
        -- left. rewrite Ht in Hg. injection Hg as ->. set_solver.
        -- right. by exists g.
Qed.

(** ** More on [Download] *)

(** X1: on an [ignore] specification [Download] asks for nothing, prints
    nothing and only sets [ownDirs] to the specification's own name;
    [PlanChanges] then plans no change, so the commit loop leaves the disk
    as it was. *)
Theorem ignore_is_left_alone {Disk} (os : OS Disk) w ord fuel base sp d :
  spType sp = "ignore" →
  Download w ord fuel sp
  = {| trace := []; outcome := Returns (set_ownDirs sp [spName sp]) |}
  ∧ PlanChanges ord fuel base (set_ownDirs sp [spName sp])
    = {| trace := []; outcome := Returns [] |}
  ∧ commit_all os [] d = ([], d).
Proof.
  intros Hty. unfold Download, PlanChanges. cbn [spType set_ownDirs].
  rewrite Hty. split_and!; [| |done]; decide_cases; intuition congruence.
Qed.

Lemma ignore_is_left_alone_witness :
  Download zip_unreachable elements_order 0 (fresh "ignore" [])
  = {| trace := []; outcome := Returns (fresh "ignore" ["foo"]) |}.
Proof.
  apply (ignore_is_left_alone
           {| os_RemoveAll := λ _ (d : unit), (d, None);
              os_Remove := λ _ d, (d, None);
              os_Mkdir := λ _ d, (d, None);
              ioutil_WriteFile := λ _ _ d, (d, None);
              os_Link := λ _ _ d, (d, None) |}
           zip_unreachable elements_order 0 "base" (fresh "ignore" []) tt).
  reflexivity.
Defined.

(** X2: on a [link] specification [Download] asks for nothing and sets
    [ownDirs] to the specification's own name, and the one directory
    [PlanChanges] then removes is that owned directory: the removal is
    [RemoveTree(base/d)] for the single [d] of [ownDirs]. *)
Theorem link_removes_what_it_owns w ord fuel base sp :
  spType sp = "link" →
  ∃ sp1 changes,
    Download w ord fuel sp = {| trace := []; outcome := Returns sp1 |}
    ∧ ownDirs sp1 = [spName sp]
    ∧ outcome (PlanChanges ord fuel base sp1) = Returns changes
    ∧ filter is_rmdir changes
      = map (λ d, fsRmdir (path.Join [base; d])) (ownDirs sp1).
Proof.
  intros Hty.
  exists (set_ownDirs sp [spName sp]),
    [fsRmdir (path.Join [base; spName sp]);
     fsLink (Location sp) (path.Join [base; spName sp])].
  split_and!.
  - unfold Download. rewrite Hty. decide_cases; intuition congruence.
  - done.
  - unfold PlanChanges. cbn [spType spName Location set_ownDirs]. rewrite Hty.
    decide_cases; intuition congruence.
  - done.
Qed.

Lemma link_removes_what_it_owns_witness :
  ∃ sp1 changes,
    Download zip_unreachable elements_order 0 (fresh "link" [])
    = {| trace := []; outcome := Returns sp1 |}
    ∧ ownDirs sp1 = ["foo"]
    ∧ outcome (PlanChanges elements_order 0 "base" sp1) = Returns changes
    ∧ filter is_rmdir changes
      = map (λ d, fsRmdir (path.Join ["base"; d])) (ownDirs sp1).
Proof.
  apply (link_removes_what_it_owns zip_unreachable elements_order 0 "base"
           (fresh "link" [])).
  reflexivity.
Defined.

Lemma fetch_zip_identity w sp doc :
  spName (fetch_zip w sp doc).2 = spName sp
  ∧ Location (fetch_zip w sp doc).2 = Location sp
  ∧ Branch (fetch_zip w sp doc).2 = Branch sp.
Proof.
  unfold fetch_zip. destruct doc as [|href ?]; [done|].
  by destruct (http_Get w _).
Qed.

(** X3: whenever [Download] returns, for any kind and any answers of the
    network, the name, type, location and branch of the specification are
    what they were: [Download] only ever writes [zipData] and [ownDirs]. *)
Theorem Download_keeps_identity w ord fuel sp sp1 :
  outcome (Download w ord fuel sp) = Returns sp1 →
  spName sp1 = spName sp ∧ spType sp1 = spType sp
  ∧ Location sp1 = Location sp ∧ Branch sp1 = Branch sp.
Proof.
  intros Hd. split_and!; [|by eapply Download_spType| |].
  all: revert Hd; destruct (decide (archive_kind sp)) as [Hk|Hk].
  all: try (rewrite Download_archive by done; cbn zeta;
            destruct (http_Get w _); [|by intros [= <-]];
            destruct (goquery_NewDocument w _) as [doc|]; [|by intros [= <-]];
            cbn [outcome]; destruct (zipData _); [|done];
            destruct (own_dirs _ _ _); [|done];
            intros [= <-]; cbn; apply fetch_zip_identity).
  all: unfold Download;
       destruct (decide (spType sp = "curse" ∨ spType sp = "wowace")); [done|];
       decide_cases; by intros [= <-].
Qed.

Lemma Download_keeps_identity_witness :
  spName (fresh "link" ["foo"]) = "foo" ∧ spType (fresh "link" ["foo"]) = "link"
  ∧ Location (fresh "link" ["foo"]) = "/pkgs/foo"
  ∧ Branch (fresh "link" ["foo"]) = "".
Proof.
  apply (Download_keeps_identity zip_unreachable elements_order 0
           (fresh "link" []) (fresh "link" ["foo"])).
  reflexivity.
Defined.

(** X4: [Download] sends no request, and prints nothing, for a kind that
    is not an archive kind.  For an archive kind its requests are, in
    order: the index page of the specification on the site of its kind;
    then, when that page was fetched and parsed and the document has a
    file row, one more, to that site's address followed by the [href] of
    the first row; and nothing else.  Later rows are never asked for, and
    without a row, or with the page not fetched or not parsed, the index is
    the only request. *)
Theorem Download_requests w ord fuel sp :
  (¬ archive_kind sp → trace (Download w ord fuel sp) = [])
  ∧ (archive_kind sp →
     requests (trace (Download w ord fuel sp))
     = index_url (spType sp) (spName sp)
       :: match http_Get w (index_url (spType sp) (spName sp)) with
          | Ok body =>
              match goquery_NewDocument w body with
              | Ok (href :: _) => [site (spType sp) +:+ href]
              | Ok [] | Err _ => []
              end
          | Err _ => []
          end).
Proof.
  split.
  - intros Hk. unfold Download.
    destruct (decide (spType sp = "curse" ∨ spType sp = "wowace")); [done|].
    by decide_cases.
  - intros Hk. rewrite Download_archive by done. cbn zeta.
    destruct (http_Get w (index_url (spType sp) (spName sp))); [|done].
    destruct (goquery_NewDocument w _) as [doc|]; [|done].
    cbn [trace]. unfold fetch_zip. destruct doc as [|href ?]; [done|].
    by destruct (http_Get w (site (spType sp) +:+ href)).
Qed.

(** X9: with the index and its document read and an archive in hand,
    [Download] returns, once its walk is given enough iterations, exactly
    when every entry other than [.] lies in a directory named by real
    elements only; when some entry does not (a file at the archive root, a
    name that starts with a slash, a directory part that climbs with [..]),
    [Download] returns for no number of iterations. *)
Theorem Download_returns_iff_placed w ord sp body doc files :
  archive_kind sp →
  http_Get w (index_url (spType sp) (spName sp)) = Ok body →
  goquery_NewDocument w body = Ok doc →
  zipData (fetch_zip w sp doc).2 = Some files →
  (Forall (λ f, Name_is_dot_or_placed (Name f)) files →
   ∃ fuel0, ∀ fuel, (fuel0 ≤ fuel)%nat →
     ∃ sp1, outcome (Download w ord fuel sp) = Returns sp1)
  ∧ (¬ Forall (λ f, Name_is_dot_or_placed (Name f)) files →
     ∀ fuel, outcome (Download w ord fuel sp) = Hangs).
Proof.
  intros Hk Hidx Hdoc Hz.
  assert (∀ fuel, outcome (Download w ord fuel sp)
                  = match own_dirs fuel files ∅ with
                    | None => Hangs
                    | Some dirs =>
                        Returns (set_ownDirs (fetch_zip w sp doc).2
                                   (range_keys ord dirs))
                    end) as Hout.
  { intros fuel. rewrite Download_archive by done. cbn zeta.
    rewrite Hidx, Hdoc. cbn [outcome]. by rewrite Hz. }
  split.
  - intros Hall. destruct (own_dirs_returns files ∅ Hall) as [fuel0 H0].
    exists fuel0. intros fuel Hle. rewrite Hout.
    destruct (H0 fuel Hle) as [dirs ->]. eauto.
  - intros Hbad fuel. rewrite Hout.
    destruct (own_dirs fuel files ∅) as [dirs|] eqn:Ho; [|done].
    destruct Hbad. by eapply own_dirs_placed.
Qed.

Lemma Download_returns_iff_placed_witness :
  (∃ fuel0, ∀ fuel, (fuel0 ≤ fuel)%nat →
     ∃ sp1, outcome (Download (serving [file "Foo/a.lua"; file "."])
                       elements_order fuel (fresh "curse" [])) = Returns sp1).
Proof.
  apply (Download_returns_iff_placed
           (serving [file "Foo/a.lua"; file "."]) elements_order
           (fresh "curse" [])
           "body of https://wow.curseforge.com/projects/foo/files"
           ["/projects/foo/files/1/download"] [file "Foo/a.lua"; file "."]).
  - left. reflexivity.
  - reflexivity.
  - reflexivity.
  - reflexivity.
  - constructor; [right|constructor; [by left|constructor]].
    unfold well_placed. vm_compute. repeat constructor; discriminate.
Defined.



(** X11: when [Download] returns with an archive, every directory it
    records joins onto the base as a direct child: [path.Join(base, d)] is
    what [Join] makes of the base, followed by one real path element.  So
    the [RemoveTree] changes planned from [ownDirs] never reach outside
    the base or deeper than its first level. *)
Theorem owned_directories_are_children_of_base
    w ord fuel sp sp1 body doc files :
  archive_kind sp →
  http_Get w (index_url (spType sp) (spName sp)) = Ok body →
  goquery_NewDocument w body = Ok doc →
  zipData (fetch_zip w sp doc).2 = Some files →
  outcome (Download w ord fuel sp) = Returns sp1 →
  ∀ d, d ∈ ownDirs sp1 →
       ∃ t, normal t ∧ ∀ base, path.Join [base; d] = join_prefix base +:+ t.
Proof.
  intros Hk Hidx Hdoc Hz. rewrite Download_archive by done. cbn zeta.
  rewrite Hidx, Hdoc. cbn [outcome]. rewrite Hz.
  destruct (own_dirs fuel files ∅) as [dirs|] eqn:Ho; [|done].
  intros [= <-] d. cbn [ownDirs set_ownDirs]. rewrite elem_of_range_keys.
  intros [Hd|(f & Hf & Hn & Ht)]%(own_dirs_spec _ _ _ _ Ho).
  { by apply not_elem_of_empty in Hd. }
  pose proof (top_dir_some_placed _ _ _ Ht) as Hwp.
  destruct (top_dir_placed _ Hwp) as (r & t & fuel0 & Hr & _ & Hnt & _ & Hj).
  apply (top_dir_mono _ (fuel `max` fuel0)) in Ht; [|lia].
  rewrite Hr in Ht by lia. injection Ht as ->. eauto.
Qed.

Lemma owned_directories_are_children_of_base_witness :
  ∃ t, normal t ∧ ∀ base, path.Join [base; "Foo/"] = join_prefix base +:+ t.
Proof.
  apply (owned_directories_are_children_of_base
           (serving [file "Foo/a.lua"; file "Foo/sub/b.lua"]) elements_order 4
           (fresh "curse" [])
           {| spName := "foo"; spType := "curse"; Location := "/pkgs/foo";
              Branch := "";
              zipData := Some [file "Foo/a.lua"; file "Foo/sub/b.lua"];
              ownDirs := ["Foo/"; "Foo"] |}
           "body of https://wow.curseforge.com/projects/foo/files"
           ["/projects/foo/files/1/download"]
           [file "Foo/a.lua"; file "Foo/sub/b.lua"]).
  - left. reflexivity.
  - reflexivity.
  - reflexivity.
  - reflexivity.
  - vm_compute. reflexivity.
  - apply list_elem_of_here.
Defined.

(** ** More on [path.Clean]: rooted paths, idempotence *)

Lemma clean_step_rooted_normal st e :
  no_slash e = true → Forall normal st →
  Forall normal (path.clean_step true st e).
Proof.
  intros He Hst. unfold path.clean_step.
  destruct (decide (e = "")); [done|]. destruct (decide (e = ".")); [done|].
  destruct (decide (e = "..")) as [->|].
  - destruct st as [|top rest]; [done|].
    destruct (decide (top = "..")); [done|]. by apply Forall_cons in Hst as [_ ?].
  - by constructor.
Qed.

Lemma foldl_rooted_normal l st :
  Forall (λ e, no_slash e = true) l → Forall normal st →
  Forall normal (foldl (path.clean_step true) st l).
Proof.
  revert st. induction l as [|e l IH]; intros st Hl Hst; [done|].
  inversion_clear Hl. cbn [foldl]. apply IH; [done|].
  by apply clean_step_rooted_normal.
Qed.

Lemma foldl_replay_any rt st :
  Forall normal st → foldl (path.clean_step rt) [] (reverse st) = st.
Proof.
  intros Hall. pose proof (foldl_lift rt (reverse st) [] []) as Hl.
  rewrite foldl_replay in Hl by (by apply normal_cstack).
  cbn [app] in Hl. rewrite Hl by (by apply normal_no_dots). apply app_nil_r.
Qed.

Lemma Clean_rooted_eq p :
  path.rooted p = true →
  ∃ st, Forall normal st
        ∧ path.Clean p = String "/" (path.join_slash (reverse st)).
Proof.
  intros Hp. unfold path.Clean. destruct (decide (p = "")) as [->|]; [done|].
  rewrite Hp. cbn zeta. eexists. split.
  - apply (foldl_rooted_normal (path.elements p) []); [apply elements_no_slash|done].
  - by destruct (decide _).
Qed.

Lemma Clean_rooted_fix st :
  Forall normal st →
  path.Clean (String "/" (path.join_slash (reverse st)))
  = String "/" (path.join_slash (reverse st)).
Proof.
  intros Hall. unfold path.Clean.
  destruct (decide (String "/" (path.join_slash (reverse st)) = "")) as [He|_];
    [done|].
  change (path.rooted (String "/" (path.join_slash (reverse st)))) with true.
  change (path.elements (String "/" (path.join_slash (reverse st))))
    with ("" :: path.elements (path.join_slash (reverse st))).
  cbn zeta. cbn [foldl]. rewrite clean_step_empty.
  destruct (decide (st = [])) as [->|Hne]; [done|].
  destruct (render_facts st (normal_cstack _ Hall) Hne) as (Hr&_&_&_&Hel).
  rewrite <-Hr, Hel, foldl_replay_any, <-Hr by done.
  by destruct (decide ("/" +:+ render st = "")).
Qed.

Lemma Clean_idem p : path.Clean (path.Clean p) = path.Clean p.
Proof.
  destruct (path.rooted p) eqn:Hrt.
  - destruct (Clean_rooted_eq p Hrt) as (st & Hall & ->). by apply Clean_rooted_fix.
  - destruct (Clean_unrooted p Hrt) as (st & Hcs & ->).
    destruct (decide (st = [])) as [->|Hne]; [by vm_compute|].
    by apply Clean_render.
Qed.

Lemma Join_clean l : path.Clean (path.Join l) = path.Join l ∨ path.Join l = "".
Proof.
  unfold path.Join. destruct (filter _ l); [by right|left]. apply Clean_idem.
Qed.

(** ** More on [path.Split] *)

Lemma Split_eq p : (path.Split p).1 +:+ (path.Split p).2 = p.
Proof.
  induction p as [|c p IH]; [done|]. cbn [path.Split].
  destruct (path.Split p) as [d f]. cbn [fst snd] in IH.
  destruct (decide (d = "")) as [->|].
  - rewrite app_nil_l_str in IH. subst f.
    by destruct (Ascii.eqb c "/") eqn:Hc; [apply Ascii.eqb_eq in Hc as ->|].
  - cbn [fst snd]. by rewrite app_cons, IH.
Qed.

Lemma ends_in_slash_snoc d : ends_in_slash d = true → ∃ d', d = d' +:+ "/".
Proof.
  induction d as [|c d IH]; [done|]. cbn [ends_in_slash].
  destruct d as [|c' d'].
  - intros ->%Ascii.eqb_eq. by exists "".
  - intros [d0 ->]%IH. by exists (String c d0).
Qed.

(** The parent of what an entry joins to is what its directory joins to. *)
Lemma Dir_Join base n :
  well_placed n → normal (path.Split n).2 →
  path.Dir (path.Join [base; n]) = path.Join [base; path.Dir n].
Proof.
  intros Hwp Hfile. apply well_placed_iff in Hwp as (Hd & Hrt & Hall & Hne).
  set (st := foldl (path.clean_step false) [] (path.elements (path.Split n).1)) in *.
  pose proof (normal_cstack _ Hall) as Hcs.
  destruct (render_facts st Hcs Hne) as (Hr & Hnn & Hnd & Hrrt & Hel).
  destruct (Split_dir_shape n) as [|Hsl]; [done|].
  apply ends_in_slash_snoc in Hsl as [d' Hd'].
  pose proof (Split_eq n) as Hn. rewrite Hd' in Hn.
  set (file := (path.Split n).2) in *.
  destruct Hfile as (Hf1 & Hf2 & Hf3 & Hf4).
  assert (n = d' +:+ String "/" file) as Hn'.
  { by rewrite <-Hn, app_assoc_str. }
  assert (foldl (path.clean_step false) [] (path.elements d') = st) as Hst'.
  { unfold st. rewrite Hd'. change "/" with (String "/" "").
    rewrite elements_slash, foldl_app. cbn [path.elements foldl].
    by rewrite clean_step_empty. }
  assert (foldl (path.clean_step false) [] (path.elements n) = file :: st) as Hstn.
  { rewrite Hn', elements_slash, foldl_app, Hst', elements_single by done.
    cbn [foldl]. unfold path.clean_step.
    by repeat (destruct (decide _); try done). }
  assert (n ≠ "") as Hnne by (rewrite Hn'; by destruct d').
  assert (path.rooted n = false) as Hnrt.
  { destruct (Split_dir n) as [|<-]; done. }
  rewrite (Join_under base n (file :: st)); [|done..|by constructor|done].
  assert (path.Dir n = render st) as ->.
  { unfold path.Dir. by rewrite Clean_unrooted_eq. }
  rewrite (Join_under base (render st) st);
    [|done|done|by apply elements_render|done|done].
  assert (render (file :: st) = render st +:+ String "/" file) as ->.
  { cbn [render]. rewrite reverse_cons, join_slash_snoc, <-Hr; [done|].
    intros ?%reverse_nil_inv. done. }
  rewrite <-app_assoc_str. unfold path.Dir. rewrite Split_app by done. cbn [fst].
  rewrite Clean_trailing_slash.
  2:{ intros [_ ?]%app_eq_empty. done. }
  rewrite <-(Join_under base (render st) st);
    [|done|done|by apply elements_render|done|done].
  destruct (Join_clean [base; render st]) as [|He]; [done|].
  rewrite (Join_under base (render st) st) in He;
    [|done|done|by apply elements_render|done|done].
  by apply app_eq_empty in He as [_ ?].
Qed.

(** ** More on [PlanChanges] *)

Lemma precedes_app l0 l1 l2 a b :
  a ∈ l1 → b ∈ l2 → precedes (l0 ++ l1 ++ l2) a b.
Proof.
  intros [i Hi]%list_elem_of_lookup_1 [j Hj]%list_elem_of_lookup_1.
  pose proof (lookup_lt_Some _ _ _ Hi) as Hlt.
  exists (length l0 + i), (length l0 + (length l1 + j)). split_and!.
  - rewrite lookup_app_r by lia. rewrite lookup_app_l by lia.
    by replace (length l0 + i - length l0) with i by lia.
  - rewrite lookup_app_r by lia. rewrite lookup_app_r by lia.
    by replace (length l0 + (length l1 + j) - length l0 - length l1) with j by lia.
  - lia.
Qed.

Lemma precedes_middle {A} (f : A → commiter) l0 (l : list A) l2 i j x y :
  l !! i = Some x → l !! j = Some y → i < j →
  precedes (l0 ++ map f l ++ l2) (f x) (f y).
Proof.
  intros Hi Hj Hij.
  pose proof (lookup_lt_Some _ _ _ Hi). pose proof (lookup_lt_Some _ _ _ Hj).
  exists (length l0 + i), (length l0 + j). split_and!; [| |lia].
  - rewrite lookup_app_r by lia. rewrite lookup_app_l by (rewrite length_map; lia).
    replace (length l0 + i - length l0) with i by lia.
    by rewrite list_lookup_fmap, Hi.
  - rewrite lookup_app_r by lia. rewrite lookup_app_l by (rewrite length_map; lia).
    replace (length l0 + j - length l0) with j by lia.
    by rewrite list_lookup_fmap, Hj.
Qed.

(** X5: on an archive kind with an archive, the plan is three runs one
    after the other: a [RemoveTree] for each owned directory, then a
    [MakeDir] for each directory of the sorted list, then a [WriteFile] for
    each entry that is not a directory, in archive order and with what
    [f.Open()] gave for the entry.  So every removal comes before every creation, every
    creation before every write, entries that are directories (by mode or
    by a trailing slash) are not written, and nothing else ([Remove],
    [Link]) is ever planned. *)
Theorem PlanChanges_three_phases ord fuel base sp files changes :
  archive_kind sp → zipData sp = Some files →
  outcome (PlanChanges ord fuel base sp) = Returns changes →
  ∃ rm mk wr,
    changes = (rm ++ mk ++ wr)%list
    ∧ rm = map (λ d, fsRmdir (path.Join [base; d])) (ownDirs sp)
    ∧ Forall is_mkdir mk
    ∧ wr = map (λ f, fsWritefile (path.Join [base; Name f]) (Data f))
               (filter (λ f, IsDir f = false) files)
    ∧ (∀ a b, a ∈ rm → b ∈ mk → precedes changes a b)
    ∧ (∀ a b, a ∈ mk → b ∈ wr → precedes changes a b).
Proof.
  intros Hk Hz. rewrite PlanChanges_archive, Hz by done. cbn [outcome].
  destruct (new_dirs fuel files ∅) as [dirs|]; [|done]. intros [= <-].
  unfold plan_archive. eexists _, _, _. split_and!; [done|done| |done| |].
  - apply Forall_forall. intros c [s [-> _]]%list_elem_of_fmap. done.
  - intros a b Ha Hb. apply (precedes_app [] _ _ a b Ha).
    by apply elem_of_app; left.
  - intros a b Ha Hb. by apply precedes_app.
Qed.

Lemma PlanChanges_three_phases_witness :
  ∃ rm mk wr,
    [fsRmdir "base/Foo"; fsMkdir "base/Foo"; fsMkdir "base/Foo/sub";
     fsWritefile "base/Foo/a.lua" (Some "data of Foo/a.lua");
     fsWritefile "base/Foo/sub/b.lua" (Some "data of Foo/sub/b.lua")]
    = (rm ++ mk ++ wr)%list
    ∧ rm = map (λ d, fsRmdir (path.Join ["base"; d])) ["Foo"]
    ∧ Forall is_mkdir mk
    ∧ wr = map (λ f, fsWritefile (path.Join ["base"; Name f]) (Data f))
               (filter (λ f, IsDir f = false)
                  [file "Foo/a.lua"; file "Foo/sub/"; file "Foo/sub/b.lua"])
    ∧ (∀ a b, a ∈ rm → b ∈ mk →
         precedes [fsRmdir "base/Foo"; fsMkdir "base/Foo"; fsMkdir "base/Foo/sub";
                   fsWritefile "base/Foo/a.lua" (Some "data of Foo/a.lua");
                   fsWritefile "base/Foo/sub/b.lua" (Some "data of Foo/sub/b.lua")] a b)
    ∧ (∀ a b, a ∈ mk → b ∈ wr →
         precedes [fsRmdir "base/Foo"; fsMkdir "base/Foo"; fsMkdir "base/Foo/sub";
                   fsWritefile "base/Foo/a.lua" (Some "data of Foo/a.lua");
                   fsWritefile "base/Foo/sub/b.lua" (Some "data of Foo/sub/b.lua")] a b).
Proof.
  apply (PlanChanges_three_phases elements_order 4 "base"
           {| spName := "foo"; spType := "curse"; Location := "";
              Branch := ""; ownDirs := ["Foo"];
              zipData := Some [file "Foo/a.lua"; file "Foo/sub/";
                               file "Foo/sub/b.lua"] |}
           [file "Foo/a.lua"; file "Foo/sub/"; file "Foo/sub/b.lua"]).
  - left. reflexivity.
  - reflexivity.
  - vm_compute. reflexivity.
Defined.

(** X6: every file the plan writes has its directory created earlier in
    the same plan: for an entry that is not a directory and does not sit at
    the archive root, [MakeDir(base/dir)] for the entry's directory stands
    before the entry's [WriteFile]. *)
Theorem write_follows_its_directory ord fuel base sp files changes f :
  archive_kind sp → zipData sp = Some files →
  outcome (PlanChanges ord fuel base sp) = Returns changes →
  f ∈ files → IsDir f = false → path.Dir (Name f) ≠ "." →
  precedes changes
    (fsMkdir (path.Join [base; path.Dir (Name f)]))
    (fsWritefile (path.Join [base; Name f]) (Data f)).
Proof.
  intros Hk Hz. rewrite PlanChanges_archive, Hz by done. cbn [outcome].
  destruct (new_dirs fuel files ∅) as [dirs|] eqn:Hd; [|done].
  intros [= <-] Hf Hdir Hnd. unfold plan_archive. apply precedes_app.
  - apply (list_elem_of_fmap_2 (λ s, fsMkdir (path.Join [base; s]))).
    apply sort_Strings_keys. apply (new_dirs_spec _ _ _ _ Hd).
    right. exists f. split; [done|]. by apply chain_here.
  - apply (list_elem_of_fmap_2
             (λ f, fsWritefile (path.Join [base; Name f]) (Data f))).
    by apply list_elem_of_filter.
Qed.

Lemma write_follows_its_directory_witness :
  precedes
    [fsRmdir "base/Foo"; fsMkdir "base/Foo"; fsMkdir "base/Foo/sub";
     fsWritefile "base/Foo/a.lua" (Some "data of Foo/a.lua");
     fsWritefile "base/Foo/sub/b.lua" (Some "data of Foo/sub/b.lua")]
    (fsMkdir (path.Join ["base"; path.Dir "Foo/sub/b.lua"]))
    (fsWritefile (path.Join ["base"; "Foo/sub/b.lua"]) (Some "data of Foo/sub/b.lua")).
Proof.
  apply (write_follows_its_directory elements_order 4 "base"
           {| spName := "foo"; spType := "curse"; Location := "";
              Branch := ""; ownDirs := ["Foo"];
              zipData := Some [file "Foo/a.lua"; file "Foo/sub/b.lua"] |}
           [file "Foo/a.lua"; file "Foo/sub/b.lua"]
           _ (file "Foo/sub/b.lua")).
  - left. reflexivity.
  - reflexivity.
  - vm_compute. reflexivity.
  - apply list_elem_of_further, list_elem_of_here.
  - reflexivity.
  - vm_compute. discriminate.
Defined.

(** X7: for an entry in a directory of real elements whose own name is a
    real element, the directory created before its [WriteFile] is the very
    directory that holds the written file: [path.Dir] of the write's target
    is the target of an earlier [MakeDir]. *)
Theorem write_target_directory_exists ord fuel base sp files changes f :
  archive_kind sp → zipData sp = Some files →
  outcome (PlanChanges ord fuel base sp) = Returns changes →
  f ∈ files → IsDir f = false →
  well_placed (Name f) → normal (path.Split (Name f)).2 →
  precedes changes
    (fsMkdir (path.Dir (path.Join [base; Name f])))
    (fsWritefile (path.Join [base; Name f]) (Data f)).
Proof.
  intros Hk Hz Hp Hf Hdir Hwp Hfile. rewrite Dir_Join by done.
  revert Hp. rewrite PlanChanges_archive, Hz by done. cbn [outcome].
  destruct (new_dirs fuel files ∅) as [dirs|] eqn:Hd; [|done].
  intros [= <-]. unfold plan_archive. apply precedes_app.
  - apply (list_elem_of_fmap_2 (λ s, fsMkdir (path.Join [base; s]))).
    apply sort_Strings_keys. apply (new_dirs_spec _ _ _ _ Hd).
    right. exists f. split; [done|]. apply chain_here.
    intros Hdot. unfold well_placed in Hwp. rewrite Hdot in Hwp. cbn in Hwp.
    by apply Forall_cons in Hwp as [(_&?&_) _].
  - apply (list_elem_of_fmap_2
             (λ f, fsWritefile (path.Join [base; Name f]) (Data f))).
    by apply list_elem_of_filter.
Qed.

Lemma write_target_directory_exists_witness :
  precedes
    [fsRmdir "base/Foo"; fsMkdir "base/Foo"; fsMkdir "base/Foo/sub";
     fsWritefile "base/Foo/a.lua" (Some "data of Foo/a.lua");
     fsWritefile "base/Foo/sub/b.lua" (Some "data of Foo/sub/b.lua")]
    (fsMkdir (path.Dir (path.Join ["base"; "Foo/sub/b.lua"])))
    (fsWritefile (path.Join ["base"; "Foo/sub/b.lua"]) (Some "data of Foo/sub/b.lua")).
Proof.
  apply (write_target_directory_exists elements_order 4 "base"
           {| spName := "foo"; spType := "curse"; Location := "";
              Branch := ""; ownDirs := ["Foo"];
              zipData := Some [file "Foo/a.lua"; file "Foo/sub/b.lua"] |}
           [file "Foo/a.lua"; file "Foo/sub/b.lua"]
           _ (file "Foo/sub/b.lua")).
  - left. reflexivity.
  - reflexivity.
  - vm_compute. reflexivity.
  - apply list_elem_of_further, list_elem_of_here.
  - reflexivity.
  - unfold well_placed. vm_compute. repeat constructor; discriminate.
  - vm_compute. repeat split; discriminate.
Defined.

(** X8: when an entry's name starts with a slash, the planner's walk up
    the parents reaches [/], whose parent is [/] again, and never sees
    [.]: [PlanChanges] returns for no number of iterations. *)
Theorem PlanChanges_hangs_on_rooted_entry ord fuel base sp files f :
  archive_kind sp → zipData sp = Some files →
  f ∈ files → path.rooted (Name f) = true →
  outcome (PlanChanges ord fuel base sp) = Hangs.
Proof.
  intros Hk Hz Hf Hrt. rewrite PlanChanges_archive, Hz by done. cbn [outcome].
  destruct (new_dirs fuel files ∅) as [dirs|] eqn:Hd; [|done].
  apply new_dirs_unrooted in Hd. rewrite Forall_forall in Hd.
  by rewrite (Hd f Hf) in Hrt.
Qed.

Lemma PlanChanges_hangs_on_rooted_entry_witness :
  outcome (PlanChanges elements_order 1000 "base"
             {| spName := "foo"; spType := "wowace"; Location := "";
                Branch := ""; ownDirs := [];
                zipData := Some [file "/etc/passwd"] |}) = Hangs.
Proof.
  apply (PlanChanges_hangs_on_rooted_entry elements_order 1000 "base" _
           [file "/etc/passwd"] (file "/etc/passwd")).
  - right. reflexivity.
  - reflexivity.
  - apply list_elem_of_here.
  - reflexivity.
Defined.

(** ** Plans for archives [Download] can place *)

Lemma on_chain_normal pth d :
  on_chain pth d → ∀ st, Forall normal st → pth = render st →
  ∃ st', Forall normal st' ∧ st' ≠ [] ∧ d = render st'.
Proof.
  induction 1 as [pth Hp|pth d Hp _ IH]; intros st Hst ->.
  - destruct st as [|e st]; [done|]. by exists (e :: st).
  - destruct st as [|e st]; [done|]. apply (IH st).
    + by apply Forall_cons in Hst as [_ ?].
    + apply Dir_render. by apply normal_cstack.
Qed.

Lemma placed_Dir n :
  Name_is_dot_or_placed n → ∃ st, Forall normal st ∧ path.Dir n = render st.
Proof.
  intros [->|Hwp]; [by exists []|].
  apply well_placed_iff in Hwp as (Hd & Hrt & Hall & Hne).
  eexists. split; [exact Hall|]. unfold path.Dir. by rewrite Clean_unrooted_eq.
Qed.

Lemma placed_unrooted n : Name_is_dot_or_placed n → path.rooted n = false.
Proof.
  intros [->|Hwp]; [done|].
  apply well_placed_iff in Hwp as (Hd & Hrt & _).
  destruct (Split_dir n) as [|<-]; done.
Qed.

Lemma Join_real base st :
  Forall normal st → st ≠ [] →
  path.Join [base; render st] = join_prefix base +:+ render st.
Proof.
  intros Hall Hne. pose proof (normal_cstack _ Hall) as Hcs.
  destruct (render_facts st Hcs Hne) as (_ & Hnn & _ & Hrt & _).
  apply Join_under; [done|done|by apply elements_render|done|done].
Qed.

Lemma StronglySorted_lt_NoDup l : StronglySorted str_lt l → NoDup l.
Proof.
  induction 1 as [|x l _ IH Hx]; constructor; [|done].
  intros Hin. rewrite Forall_forall in Hx. by destruct (Hx x Hin) as [_ ?].
Qed.

(** X12: for an archive whose entries (other than [.]) all lie in
    directories of real elements, as on every archive [Download] returned
    on, each [MakeDir] target is what [Join] makes of the base followed by
    the directory; no directory is created twice; and whenever one target
    lies above another, its [MakeDir] comes first in the plan. *)
Theorem MakeDir_targets_in_order ord fuel base sp files changes :
  archive_kind sp → zipData sp = Some files →
  Forall (λ f, Name_is_dot_or_placed (Name f)) files →
  outcome (PlanChanges ord fuel base sp) = Returns changes →
  (∃ dirSl, filter is_mkdir changes
            = map (λ s, fsMkdir (join_prefix base +:+ s)) dirSl)
  ∧ NoDup (filter is_mkdir changes)
  ∧ ∀ p q, fsMkdir p ∈ changes → fsMkdir q ∈ changes → ancestor p q →
           precedes changes (fsMkdir p) (fsMkdir q).
Proof.
  intros Hk Hz Hall. rewrite PlanChanges_archive, Hz by done. cbn [outcome].
  destruct (new_dirs fuel files ∅) as [dirs|] eqn:Hd; [|done]. intros [= <-].
  destruct (sort_Strings_keys ord (dom dirs)) as [Hsorted Hmem].
  set (dirSl := sort_Strings (range_keys ord (dom dirs))) in *.
  assert (∀ s, s ∈ dirSl → path.Join [base; s] = join_prefix base +:+ s) as Hj.
  { intros s Hs. apply Hmem, (new_dirs_spec _ _ _ _ Hd) in Hs.
    destruct Hs as [Hs|(f & Hf & Hon)]; [by rewrite dom_empty_L in Hs|].
    rewrite Forall_forall in Hall.
    destruct (placed_Dir _ (Hall f Hf)) as (st & Hst & Hdir).
    destruct (on_chain_normal _ _ Hon st Hst Hdir) as (st' & Hst' & Hne & ->).
    by apply Join_real. }
  assert (map (λ s, fsMkdir (path.Join [base; s])) dirSl
          = map (λ s, fsMkdir (join_prefix base +:+ s)) dirSl) as Hmap.
  { apply map_ext_in. intros s Hs%list_elem_of_In. by rewrite Hj. }
  rewrite filter_mkdir_plan. split_and!.
  - by exists dirSl.
  - rewrite Hmap. apply NoDup_fmap_2; [|by apply StronglySorted_lt_NoDup].
    intros s1 s2 [= Heq]. by apply (inj (String.app (join_prefix base))) in Heq.
  - intros p q Hp Hq Hanc. unfold plan_archive in *.
    assert (∀ x, fsMkdir x ∈
                   (map (λ d, fsRmdir (path.Join [base; d])) (ownDirs sp)
                    ++ map (λ s, fsMkdir (path.Join [base; s])) dirSl
                    ++ map (λ f, fsWritefile (path.Join [base; Name f]) (Data f))
                           (filter (λ f, IsDir f = false) files))%list →
                 ∃ s, s ∈ dirSl ∧ x = join_prefix base +:+ s) as Hin.
    { intros x [Hx|[Hx|Hx]%elem_of_app]%elem_of_app.
      - by apply list_elem_of_fmap in Hx as (? & [=] & _).
      - apply list_elem_of_fmap in Hx as (s & [= ->] & Hs). exists s.
        by rewrite Hj.
      - by apply list_elem_of_fmap in Hx as (? & [=] & _). }
    destruct (Hin p Hp) as (a & Ha & ->). destruct (Hin q Hq) as (b & Hb & ->).
    assert (ancestor a b) as Hab.
    { destruct Hanc as [r Hr]. exists r.
      rewrite app_assoc_str in Hr.
      by apply (inj (String.app (join_prefix base))) in Hr. }
    destruct (sorted_before dirSl a b Hsorted Ha Hb (ancestor_lt a b Hab))
      as (i & j & Hi & Hjj & Hij).
    rewrite <-(Hj a Ha), <-(Hj b Hb).
    by apply (precedes_middle (λ s, fsMkdir (path.Join [base; s])) _ dirSl _ i j).
Qed.

Lemma MakeDir_targets_in_order_witness :
  NoDup (filter is_mkdir
           [fsRmdir "base/Foo"; fsMkdir "base/Foo"; fsMkdir "base/Foo/sub";
            fsWritefile "base/Foo/a.lua" (Some "data of Foo/a.lua");
            fsWritefile "base/Foo/sub/b.lua" (Some "data of Foo/sub/b.lua")]).
Proof.
  apply (MakeDir_targets_in_order elements_order 4 "base"
           {| spName := "foo"; spType := "curse"; Location := "";
              Branch := ""; ownDirs := ["Foo"];
              zipData := Some [file "Foo/a.lua"; file "Foo/sub/b.lua"] |}
           [file "Foo/a.lua"; file "Foo/sub/b.lua"]).
  - left. reflexivity.
  - reflexivity.
  - apply Forall_cons. split.
    { right. unfold well_placed. vm_compute. repeat constructor; discriminate. }
    apply Forall_cons. split; [|constructor].
    right. unfold well_placed. vm_compute. repeat constructor; discriminate.
  - vm_compute. reflexivity.
Defined.





(** X13: in a run, where a specification starts without an archive,
    whenever [Download] returns on an archive kind the planner's walks all
    end: [PlanChanges] returns once given enough iterations. *)
Theorem planning_returns_after_Download w ord ord' fuel base sp sp1 :
  archive_kind sp → zipData sp = None →
  outcome (Download w ord fuel sp) = Returns sp1 →
  ∃ fuel0, ∀ fuel', (fuel0 ≤ fuel')%nat →
    ∃ changes, outcome (PlanChanges ord' fuel' base sp1) = Returns changes.
Proof.
  intros Hk Hz Hd.
  assert (archive_kind sp1) as Hk1.
  { unfold archive_kind. by rewrite (Download_spType _ _ _ _ _ Hd). }
  assert (sp1 = sp ∨ ∃ files dirs, zipData sp1 = Some files
                                   ∧ own_dirs fuel files ∅ = Some dirs) as Hcase.
  { revert Hd. rewrite Download_archive by done. cbn zeta.
    destruct (http_Get w _) as [body|] eqn:Hidx; [|intros [= <-]; by left].
    destruct (goquery_NewDocument w body) as [doc|] eqn:Hdoc;
      [|intros [= <-]; by left].
    cbn [outcome].
    destruct (zipData (fetch_zip w sp doc).2) as [files|] eqn:Hzf; [|done].
    destruct (own_dirs fuel files ∅) as [dirs|] eqn:Ho; [|done].
    intros [= <-]. right. by exists files, dirs. }
  destruct Hcase as [->|(files & dirs & Hz1 & Ho)].
  - exists 0. intros fuel' _. rewrite PlanChanges_archive, Hz by done. eauto.
  - apply own_dirs_placed in Ho.
    assert (Forall (λ f, path.rooted (Name f) = false) files) as Hun.
    { eapply Forall_impl; [exact Ho|]. intros f Hf. by apply placed_unrooted. }
    destruct (new_dirs_terminates files ∅ Hun) as [fuel0 H0].
    exists fuel0. intros fuel' Hle. rewrite PlanChanges_archive, Hz1 by done.
    cbn [outcome]. destruct (H0 fuel' Hle) as [d ->]. eauto.
Qed.

Lemma planning_returns_after_Download_witness :
  ∃ fuel0, ∀ fuel', (fuel0 ≤ fuel')%nat →
    ∃ changes,
      outcome (PlanChanges elements_order fuel' "base"
                 {| spName := "foo"; spType := "curse"; Location := "/pkgs/foo";
                    Branch := "";
                    zipData := Some [file "Foo/a.lua"; file "Foo/sub/b.lua"];
                    ownDirs := ["Foo/"; "Foo"] |}) = Returns changes.
Proof.
  apply (planning_returns_after_Download
           (serving [file "Foo/a.lua"; file "Foo/sub/b.lua"])
           elements_order elements_order 4 "base" (fresh "curse" [])).
  - left. reflexivity.
  - reflexivity.
  - vm_compute. reflexivity.
Defined.

(** ** The configuration file *)

(** X14: the configuration file is always [wpm/wpm.yaml] under what
    [Join] makes of [APPDATA]: its file name is [wpm.yaml], and with
    [APPDATA] unset it is the relative path [wpm/wpm.yaml]. *)
Theorem wpmLocation_shape env :
  wpmLocation env = join_prefix (APPDATA env) +:+ "wpm/wpm.yaml"
  ∧ (path.Split (wpmLocation env)).2 = "wpm.yaml"
  ∧ (APPDATA env = "" → wpmLocation env = "wpm/wpm.yaml").
Proof.
  assert (wpmLocation env = join_prefix (APPDATA env) +:+ "wpm/wpm.yaml") as Hw.
  { unfold wpmLocation. destruct (decide (APPDATA env = "")) as [->|Ha].
    - by vm_compute.
    - transitivity (path.Join [APPDATA env; "wpm/wpm.yaml"]).
      + rewrite Join_two by done. unfold path.Join. cbn [filter list_filter].
        destruct (decide (APPDATA env ≠ "")) as [_|Hc]; [|by destruct Hc].
        done.
      + apply (Join_under _ "wpm/wpm.yaml" ["wpm.yaml"; "wpm"]); [done..| |done].
        repeat constructor; done. }
  split_and!; [done| |].
  - rewrite Hw. change "wpm/wpm.yaml" with ("wpm" +:+ String "/" "wpm.yaml").
    rewrite <-app_assoc_str. by rewrite Split_app.
  - intros Ha. rewrite Hw, Ha. done.
Qed.

(** What [readConfig] returns went through the yaml package: none of its
    specifications holds an archive. *)
Lemma exported_blank cfg inst sp :
  inst ∈ Installations (exported cfg) → Some sp ∈ Addons inst →
  zipData sp = None ∧ ownDirs sp = [].
Proof.
  intros (i & -> & _)%list_elem_of_fmap.
  intros ([s|] & Hs & _)%list_elem_of_fmap; [|done].
  by injection Hs as ->.
Qed.

Lemma readConfig_exported env cfg :
  readConfig env = Ok cfg → ∃ c, cfg = exported c.
Proof.
  unfold readConfig. destruct (ioutil_ReadFile env _); [|done].
  destruct (yaml_Unmarshal env _) as [c|]; [|done].
  intros [= <-]. by exists c.
Qed.

(** [Download] without an archive to be had, from a specification that
    holds none. *)
Lemma Download_nil_archive w ord fuel sp body href rest :
  archive_kind sp → zipData sp = None →
  http_Get w (index_url (spType sp) (spName sp)) = Ok body →
  goquery_NewDocument w body = Ok (href :: rest) →
  (∀ b, http_Get w (site (spType sp) +:+ href) = Ok b →
        ∃ e, zip_NewReader w b = Err e) →
  outcome (Download w ord fuel sp) = Panics.
Proof.
  intros Hk Hz Hidx Hdoc Hzip. rewrite Download_archive by done.
  cbn zeta. rewrite Hidx, Hdoc. cbn [fetch_zip outcome].
  destruct (http_Get w (site _ +:+ href)) as [b|e] eqn:Hget; cbn [fst snd].
  - by destruct (Hzip b eq_refl) as [e ->].
  - by rewrite Hz.
Qed.

(** X16: for every archive-kind specification of a configuration that
    was read, if the index and its document are read but the archive is
    not to be had (its download fails or its bytes are no archive),
    [Download] panics: in a run nothing can have put an archive into the
    specification before. *)
Theorem Download_of_read_specification_panics
    env w ord fuel cfg inst sp body href rest :
  readConfig env = Ok cfg →
  inst ∈ Installations cfg → Some sp ∈ Addons inst →
  archive_kind sp →
  http_Get w (index_url (spType sp) (spName sp)) = Ok body →
  goquery_NewDocument w body = Ok (href :: rest) →
  (∀ b, http_Get w (site (spType sp) +:+ href) = Ok b →
        ∃ e, zip_NewReader w b = Err e) →
  outcome (Download w ord fuel sp) = Panics.
Proof.
  intros Hr Hi Hs Hk Hidx Hdoc Hzip.
  destruct (readConfig_exported env cfg Hr) as [c ->].
  destruct (exported_blank c inst sp Hi Hs) as [Hz _].
  by eapply Download_nil_archive.
Qed.

Lemma Download_of_read_specification_panics_witness :
  outcome (Download zip_unreachable elements_order 4
             (exported_spec (fresh "curse" ["Old"]))) = Panics.
Proof.
  apply (Download_of_read_specification_panics
           (reading one_installation) zip_unreachable elements_order 4
           (exported one_installation)
           (exported_inst {| Dir := "D:\wow";
                             Addons := [Some (fresh "curse" ["Old"])] |})
           (exported_spec (fresh "curse" ["Old"]))
           "index" "/projects/foo/files/1/download" []).
  - reflexivity.
  - apply list_elem_of_here.
  - apply list_elem_of_here.
  - left. reflexivity.
  - vm_compute. reflexivity.
  - reflexivity.
  - intros b Hb. vm_compute in Hb. discriminate Hb.
Defined.

(** ** The command [add] *)

Lemma add_loop_from pth new (seen todo : list Installation) :
  foldl (add_at pth new) (seen ++ todo)%list (seq (length seen) (length todo))
  = (seen ++ map (λ v, if decide (Dir v = pth)
                       then {| Dir := Dir v; Addons := (Addons v ++ [Some new])%list |}
                       else v) todo)%list.
Proof.
  revert seen. induction todo as [|v todo IH]; intros seen; [done|].
  cbn [length seq foldl map].
  set (v' := if decide (Dir v = pth)
             then {| Dir := Dir v; Addons := (Addons v ++ [Some new])%list |}
             else v).
  assert (add_at pth new (seen ++ v :: todo)%list (length seen)
          = ((seen ++ [v']) ++ todo)%list) as ->.
  { unfold add_at, v'. rewrite list_lookup_middle by done.
    destruct (decide (Dir v ≠ pth)) as [Hn|Hy].
    - destruct (decide (Dir v = pth)); [done|]. by rewrite <-app_assoc.
    - destruct (decide (Dir v = pth)) as [_|Hc]; [|by destruct Hy].
      rewrite <-app_assoc. cbn [app].
      replace (length seen) with (length seen + 0) at 1 by lia.
      by rewrite insert_app_r. }
  replace (S (length seen)) with (length (seen ++ [v'])%list)
    by (rewrite length_app; cbn; lia).
  rewrite IH. by rewrite <-app_assoc.
Qed.

(** X17: the loop of [add], which assigns into [cfg.Installations] by
    index while it ranges over it, appends the new specification to the
    addons of every installation whose directory is the one asked for, at
    the end, and leaves every other installation, the number of
    installations and their order as they were. *)
Theorem add_appends_where_the_directory_matches pth new insts :
  add_loop pth new insts
  = map (λ v, if decide (Dir v = pth)
              then {| Dir := Dir v; Addons := (Addons v ++ [Some new])%list |}
              else v) insts.
Proof. apply (add_loop_from pth new [] insts). Qed.



(** ** The command [list] *)

Lemma list_loop_first env insts p :
  match list_loop env insts p with
  | None => Forall (λ j, Dir j ≠ p) insts
  | Some out =>
      ∃ pre i post, insts = (pre ++ i :: post)%list
                    ∧ Forall (λ j, Dir j ≠ p) pre ∧ Dir i = p
                    ∧ out = match yaml_Marshal_Installation env i with
                            | Ok s => s
                            | Err _ => ""
                            end +:+ String "010" ""
  end.
Proof.
  induction insts as [|i insts IH]; [constructor|]. cbn [list_loop].
  destruct (decide (Dir i ≠ p)) as [Hn|Hy].
  - destruct (list_loop env insts p) as [out|].
    + destruct IH as (pre & j & post & -> & Hpre & Hj & ->).
      exists (i :: pre), j, post. split_and!; [done|by constructor|done..].
    + by constructor.
  - exists [], i, insts. split_and!; [done|constructor| |done].
    by destruct (decide (Dir i = p)) as [|Hc]; [|destruct Hy].
Qed.

(** X19: with a configuration read and a directory given, [list] prints
    one text and ends normally: the first installation at that directory
    and no later one, or that no installation is handled there when there
    is none. *)
Theorem list_prints_the_first_match env p cfg :
  readConfig env = Ok cfg → p ≠ "" →
  (Forall (λ j, Dir j ≠ p) (Installations cfg)
   ∧ cmd_list env p
     = (["No installations handled at '" +:+ p +:+ "'" +:+ String "010" ""],
        Done))
  ∨ ∃ pre i post,
      Installations cfg = (pre ++ i :: post)%list
      ∧ Forall (λ j, Dir j ≠ p) pre ∧ Dir i = p
      ∧ cmd_list env p
        = ([match yaml_Marshal_Installation env i with
            | Ok s => s
            | Err _ => ""
            end +:+ String "010" ""], Done).
Proof.
  intros Hr Hp. unfold cmd_list. rewrite Hr.
  destruct (decide (p = "")); [done|].
  pose proof (list_loop_first env (Installations cfg) p) as Hl.
  destruct (list_loop env (Installations cfg) p) as [out|].
  - right. destruct Hl as (pre & i & post & Heq & Hpre & Hi & ->).
    by exists pre, i, post.
  - by left.
Qed.

Lemma list_prints_the_first_match_witness :
  cmd_list (reading one_installation) "D:\wow" = (["dir: D:\wow" +:+ String "010" ""], Done).
Proof.
  destruct (list_prints_the_first_match (reading one_installation) "D:\wow"
              (exported one_installation) eq_refl) as [[Hno _]|Hyes].
  - discriminate.
  - exfalso. apply Forall_cons in Hno as [Hno _]. by apply Hno.
  - reflexivity.
Defined.
